(** * toJson.py: state-table dump to JSON converter

    A shallow embedding of [src/toJson.py].

    - A Python [str] is a list of characters; characters are modelled as
      ASCII code points ([ascii]), and the classes [\s], [\d] and [.] of
      the two regular expressions, and [str.strip], are restricted to them.
    - The two regular expressions are embedded as programs of a small
      backtracking matcher ([re_run]) with greedy repetition and capture
      groups, in the way Python's [re.match] runs them.
    - A Python [dict] is an association list in insertion order.
    - [data[k].append(...)] raises [KeyError] when [k] is absent: the scan
      is therefore a computation in [option], [None] being that error. *)

From Stdlib Require Import Ascii String.
From Stdlib Require Import List ZArith Bool Lia Sorted Permutation.
From Stdlib Require Decimal DecimalString DecimalZ.
Import ListNotations.

Open Scope list_scope.

(** ** Python strings *)

Definition pystr := list ascii.

(** A Python string literal. *)
Definition py (s : string) : pystr := list_ascii_of_string s.

Definition LF : ascii := "010"%char.
Definition CR : ascii := "013"%char.

(** [str.isspace] on ASCII, which is also what [\s] matches in a [str]
    pattern: [\t \n \v \f \r], the separators [\x1c]..[\x1f] and space. *)
Definition is_space (c : ascii) : bool :=
  let n := nat_of_ascii c in
  (n =? 32) || ((9 <=? n) && (n <=? 13)) || ((28 <=? n) && (n <=? 31)).

(** [\d] on ASCII. *)
Definition is_digit (c : ascii) : bool :=
  let n := nat_of_ascii c in (48 <=? n) && (n <=? 57).

(** [.] without [re.DOTALL]: every character but the newline. *)
Definition not_newline (c : ascii) : bool := negb (Ascii.eqb c LF).

Definition is_char (c : ascii) (d : ascii) : bool := Ascii.eqb d c.

Definition str_eqb (a b : pystr) : bool :=
  if list_eq_dec ascii_dec a b then true else false.

(** ** A backtracking regular-expression matcher *)

Inductive atom : Type :=
| AChar (p : ascii -> bool)   (** one character of a class *)
| AStar (p : ascii -> bool)   (** greedy [*] over a class *)
| AOpen                       (** [(] *)
| AClose                      (** [)] *)
| AEnd.                       (** [$] *)

Definition lit (s : string) : list atom :=
  map (fun c => AChar (is_char c)) (list_ascii_of_string s).

(** [X+] is [X X*]. *)
Definition re_plus (p : ascii -> bool) : list atom := [AChar p; AStar p].

(** The remainders a [*] over [p] can leave, shortest consumption first. *)
Fixpoint star_suffixes (p : ascii -> bool) (s : pystr) : list pystr :=
  s :: match s with
       | c :: s' => if p c then star_suffixes p s' else []
       | [] => []
       end.

Fixpoint first_some {A B : Type} (f : A -> option B) (l : list A) : option B :=
  match l with
  | [] => None
  | x :: l' => match f x with Some y => Some y | None => first_some f l' end
  end.

(** [$] without [re.MULTILINE]: at the end, or before a final newline. *)
Definition end_ok (s : pystr) : bool :=
  match s with
  | [] => true
  | [c] => Ascii.eqb c LF
  | _ => false
  end.

(** [re_run rs s opens caps]: match the atoms [rs] at the front of [s];
    [opens] holds the input remaining at each open group, [caps] the
    groups captured so far, in order.  A greedy [*] tries the longest run
    first and backtracks. *)
Fixpoint re_run (rs : list atom) (s : pystr) (opens caps : list pystr)
  : option (list pystr) :=
  match rs with
  | [] => Some caps
  | AChar p :: rs' =>
      match s with
      | c :: s' => if p c then re_run rs' s' opens caps else None
      | [] => None
      end
  | AStar p :: rs' =>
      first_some (fun t => re_run rs' t opens caps) (rev (star_suffixes p s))
  | AOpen :: rs' => re_run rs' s (s :: opens) caps
  | AClose :: rs' =>
      match opens with
      | o :: os => re_run rs' s os (caps ++ [firstn (length o - length s) o])
      | [] => None
      end
  | AEnd :: rs' => if end_ok s then re_run rs' s opens caps else None
  end.

(** [re.match]: anchored at the start; [Some groups] on a match. *)
Definition re_match (rs : list atom) (s : pystr) : option (list pystr) :=
  re_run rs s [] [].

(** [m.group(i)] for [i >= 1]. *)
Definition group (i : nat) (caps : list pystr) : pystr := nth (i - 1) caps [].

(** The source text of the two patterns, as written in [toJson.py]. *)
Definition STATE_RE_source : string := "^\s*State\s+(\d+)\s*$".
Definition ITEM_RE_source : string := "^\s*\[(.*)\]\s*:\s*(\d+)\s*$".

(** [STATE_RE = re.compile(STATE_RE_source)] *)
Definition STATE_RE : list atom :=
  [AStar is_space] ++ lit "State" ++ re_plus is_space
  ++ [AOpen] ++ re_plus is_digit ++ [AClose]
  ++ [AStar is_space; AEnd].

(** [ITEM_RE = re.compile(ITEM_RE_source)] *)
Definition ITEM_RE : list atom :=
  [AStar is_space] ++ lit "[" ++ [AOpen; AStar not_newline; AClose] ++ lit "]"
  ++ [AStar is_space] ++ lit ":" ++ [AStar is_space]
  ++ [AOpen] ++ re_plus is_digit ++ [AClose]
  ++ [AStar is_space; AEnd].

(** ** [normalize_key] *)

(** [s.split(sep)] for a one-character separator: never empty. *)
Fixpoint split_on (sep : ascii) (s : pystr) : list pystr :=
  match s with
  | [] => [[]]
  | c :: s' =>
      let rest := split_on sep s' in
      if Ascii.eqb c sep then [] :: rest
      else match rest with
           | r :: rs => (c :: r) :: rs
           | [] => [[c]]
           end
  end.

Fixpoint lstrip (s : pystr) : pystr :=
  match s with
  | c :: s' => if is_space c then lstrip s' else s
  | [] => []
  end.

(** [s.strip()] *)
Definition strip (s : pystr) : pystr := rev (lstrip (rev (lstrip s))).

(** [sep.join(parts)] *)
Fixpoint join (sep : pystr) (parts : list pystr) : pystr :=
  match parts with
  | [] => []
  | [p] => p
  | p :: ps => p ++ sep ++ join sep ps
  end.

(** [p not in ("T", "NT") and p != ""] *)
Definition keep_part (p : pystr) : bool :=
  negb (existsb (str_eqb p) [py "T"; py "NT"]) && negb (str_eqb p []).

(** [normalize_key(inner)]:
    [parts = [p.strip() for p in inner.split(",")]];
    [parts = [p for p in parts if p not in ("T", "NT") and p != ""]];
    [return "[" + ", ".join(parts) + "]"]. *)
Definition normalize_key (inner : pystr) : pystr :=
  let parts := map strip (split_on "," inner) in
  let parts := filter keep_part parts in
  py "[" ++ join (py ", ") parts ++ py "]".

(** ** [int] and [str] on integers *)

Definition digit_value (c : ascii) : Z := Z.of_nat (nat_of_ascii c) - 48.

(** [int(g)] for a group [g] matched by [\d+]. *)
Definition int_of_digits (ds : pystr) : Z :=
  fold_left (fun acc c => acc * 10 + digit_value c)%Z ds 0%Z.

(** [str(z)]: decimal, without leading zeros, with a [-] when negative. *)
Definition str_int (z : Z) : pystr :=
  list_ascii_of_string (DecimalString.NilEmpty.string_of_int (Z.to_int z)).

(** ** Dictionaries in insertion order *)

Definition dict (V : Type) := list (pystr * V).

(** [d.get(k)]; [None] where [d[k]] raises [KeyError]. *)
Fixpoint dict_get {V : Type} (k : pystr) (d : dict V) : option V :=
  match d with
  | [] => None
  | (k', v) :: d' => if str_eqb k k' then Some v else dict_get k d'
  end.

(** [d[k] = v]: in place when present, appended otherwise. *)
Fixpoint dict_set {V : Type} (k : pystr) (v : V) (d : dict V) : dict V :=
  match d with
  | [] => [(k, v)]
  | (k', v') :: d' =>
      if str_eqb k k' then (k', v) :: d' else (k', v') :: dict_set k v d'
  end.

(** [d.setdefault(k, v)] *)
Definition setdefault {V : Type} (k : pystr) (v : V) (d : dict V) : dict V :=
  match dict_get k d with
  | Some _ => d
  | None => d ++ [(k, v)]
  end.

Definition keys {V : Type} (d : dict V) : list pystr := map fst d.

(** ** [convert] *)

(** [{"key": ..., "value": ...}] *)
Record item : Type := mk_item { key : pystr; value : Z }.

(** The locals of the [for line in lines] loop. *)
Record scan : Type := mk_scan {
  data : dict (list item);
  current_state : option Z;
  max_state_seen : Z
}.

Definition scan_init : scan :=
  {| data := []; current_state := None; max_state_seen := (-1)%Z |}.

(** One iteration of the loop body. *)
Definition scan_line (st : scan) (line : pystr) : option scan :=
  match re_match STATE_RE line with
  | Some m_state =>
      let cs := int_of_digits (group 1 m_state) in
      Some {| data := setdefault (str_int cs) [] st.(data);
              current_state := Some cs;
              max_state_seen := Z.max st.(max_state_seen) cs |}
  | None =>
      match re_match ITEM_RE line, st.(current_state) with
      | Some m_item, Some cs =>
          let it := {| key := normalize_key (group 1 m_item);
                       value := int_of_digits (group 2 m_item) |} in
          match dict_get (str_int cs) st.(data) with
          | Some xs =>
              Some {| data := dict_set (str_int cs) (xs ++ [it]) st.(data);
                      current_state := st.(current_state);
                      max_state_seen := st.(max_state_seen) |}
          | None => None
          end
      | _, _ => Some st
      end
  end.

Fixpoint scan_lines (st : scan) (lines : list pystr) : option scan :=
  match lines with
  | [] => Some st
  | l :: ls =>
      match scan_line st l with
      | Some st' => scan_lines st' ls
      | None => None
      end
  end.

(** [range(n)] *)
Definition range (n : Z) : list Z := map Z.of_nat (seq 0 (Z.to_nat n)).

(** [for s in range(n): data.setdefault(str(s), [])] *)
Definition fill_empty (n : Z) (d : dict (list item)) : dict (list item) :=
  fold_left (fun d s => setdefault (str_int s) [] d) (range n) d.

(** [convert] after [splitlines()]. *)
Definition convert_lines (lines : list pystr) (include_empty_states : bool)
  : option (dict (list item)) :=
  match scan_lines scan_init lines with
  | None => None
  | Some st =>
      Some (if include_empty_states
            then fill_empty (st.(max_state_seen) + 1) st.(data)
            else st.(data))
  end.

(** [str.splitlines()] on ASCII: breaks at [\n], [\r], [\r\n], [\v],
    [\f], [\x1c], [\x1d] and [\x1e]; no empty line after a final break. *)
Definition is_line_break (c : ascii) : bool :=
  let n := nat_of_ascii c in
  ((10 <=? n) && (n <=? 13)) || ((28 <=? n) && (n <=? 30)).

Fixpoint splitlines_aux (cur : pystr) (s : pystr) : list pystr :=
  match s with
  | [] => match cur with [] => [] | _ => [rev cur] end
  | c :: s' =>
      if Ascii.eqb c CR then
        match s' with
        | d :: s'' =>
            if Ascii.eqb d LF then rev cur :: splitlines_aux [] s''
            else rev cur :: splitlines_aux [] s'
        | [] => [rev cur]
        end
      else if is_line_break c then rev cur :: splitlines_aux [] s'
      else splitlines_aux (c :: cur) s'
  end.

Definition splitlines (s : pystr) : list pystr := splitlines_aux [] s.

(** [convert(txt_path, include_empty_states)] on the decoded text of the
    file. *)
Definition convert (text : pystr) (include_empty_states : bool)
  : option (dict (list item)) :=
  convert_lines (splitlines text) include_empty_states.

Definition lines_of (ls : list string) : list pystr := map py ls.

(** * Views of the input used to state the properties *)

(** How the loop body sees a line: [STATE_RE] is tried first. *)
Inductive line_kind : Type :=
| Header (n : Z)
| ItemLine (it : item)
| Other.

Definition classify (line : pystr) : line_kind :=
  match re_match STATE_RE line with
  | Some m => Header (int_of_digits (group 1 m))
  | None =>
      match re_match ITEM_RE line with
      | Some m => ItemLine (mk_item (normalize_key (group 1 m))
                                    (int_of_digits (group 2 m)))
      | None => Other
      end
  end.

Definition is_header (line : pystr) : bool :=
  match classify line with Header _ => true | _ => false end.

(** The state indices of the header lines, in order. *)
Fixpoint headers (lines : list pystr) : list Z :=
  match lines with
  | [] => []
  | l :: ls =>
      match classify l with
      | Header n => n :: headers ls
      | _ => headers ls
      end
  end.

(** The state of the last header, starting from [cur]. *)
Fixpoint last_header (cur : option Z) (lines : list pystr) : option Z :=
  match lines with
  | [] => cur
  | l :: ls =>
      match classify l with
      | Header n => last_header (Some n) ls
      | _ => last_header cur ls
      end
  end.

(** Every item line paired with the state of the header most recently
    preceding it; item lines with no header before them are left out. *)
Fixpoint owned (cur : option Z) (lines : list pystr) : list (Z * item) :=
  match lines with
  | [] => []
  | l :: ls =>
      match classify l with
      | Header n => owned (Some n) ls
      | ItemLine it =>
          match cur with
          | Some c => (c, it) :: owned cur ls
          | None => owned cur ls
          end
      | Other => owned cur ls
      end
  end.

(** The items of the lines owned by state [n], in input order. *)
Definition items_of (n : Z) (lines : list pystr) : list item :=
  map snd (filter (fun p => Z.eqb (fst p) n) (owned None lines)).

(** The items of the item lines of [lines], in order. *)
Fixpoint item_lines (lines : list pystr) : list item :=
  match lines with
  | [] => []
  | l :: ls =>
      match classify l with
      | ItemLine it => it :: item_lines ls
      | _ => item_lines ls
      end
  end.

Definition mem (n : Z) (ns : list Z) : bool := existsb (Z.eqb n) ns.

Definition add_new (seen : list Z) (n : Z) : list Z :=
  if mem n seen then seen else seen ++ [n].

(** The header indices without repetition, by first appearance. *)
Definition first_seen (lines : list pystr) : list Z :=
  fold_left add_new (headers lines) [].

(** The largest header index, [-1] when there is none. *)
Definition max_header (lines : list pystr) : Z :=
  fold_left Z.max (headers lines) (-1)%Z.

Definition table (lines : list pystr) : dict (list item) :=
  map (fun n => (str_int n, items_of n lines)) (first_seen lines).

Definition scan_after (lines : list pystr) : scan :=
  {| data := table lines;
     current_state := last_header None lines;
     max_state_seen := max_header lines |}.

(** The missing indices [0..n-1] that gap-filling adds, in order. *)
Definition gaps (lines : list pystr) (n : Z) : list Z :=
  filter (fun s => negb (mem s (first_seen lines))) (range n).

(** Keys in strictly ascending numeric order. *)
Definition ascending_keys (d : dict (list item)) : Prop :=
  exists ns, keys d = map str_int ns /\ StronglySorted Z.lt ns.

(** [t] is [p] without its surrounding whitespace. *)
Definition trimmed (p t : pystr) : Prop :=
  exists l r, p = l ++ t ++ r
    /\ forallb is_space l = true /\ forallb is_space r = true
    /\ (forall c t', t = c :: t' -> is_space c = false)
    /\ (forall t' c, t = t' ++ [c] -> is_space c = false).

(** The tags dropped by [normalize_key], and the empty token. *)
Definition dropped_token (t : pystr) : bool :=
  str_eqb t (py "T") || str_eqb t (py "NT") || str_eqb t [].

(** The text between the brackets of a key: [k[1:-1]]. *)
Definition key_inner (k : pystr) : pystr := removelast (tl k).

(** The lines from the first header on: the item lines before it have no
    state to go to. *)
Fixpoint from_first_header (lines : list pystr) : list pystr :=
  match lines with
  | [] => []
  | l :: ls => if is_header l then lines else from_first_header ls
  end.

(** Two normalized keys put side by side: the texts between their
    brackets, the empty ones left out, joined by a comma and a space. *)
Definition concat_keys (k1 k2 : pystr) : pystr :=
  py "[" ++ join (py ", ")
    (filter (fun p => negb (str_eqb p [])) [key_inner k1; key_inner k2])
  ++ py "]".

(** * Proofs *)

(** ** The regular expressions *)

Section Regex.

Lemma first_some_Some {A B : Type} (f : A -> option B) l r :
  first_some f l = Some r -> exists x, In x l /\ f x = Some r.
Proof.
  induction l as [|x l IH]; simpl; [discriminate|].
  destruct (f x) eqn:E.
  - intros [= <-]. eauto.
  - intros H. destruct (IH H) as (y & Hy & Hf). eauto.
Qed.

Lemma star_suffixes_spec p s t :
  In t (star_suffixes p s) -> exists pre, s = pre ++ t /\ forallb p pre = true.
Proof.
  revert t; induction s as [|c s IH]; simpl; intros t Ht.
  - destruct Ht as [<-|[]]. exists []. auto.
  - destruct Ht as [<-|Ht].
    + exists []. auto.
    + destruct (p c) eqn:Hc; [|destruct Ht].
      destruct (IH t Ht) as (pre & -> & Hpre).
      exists (c :: pre). simpl. rewrite Hc. auto.
Qed.

Lemma re_run_char_inv p rs s o c r :
  re_run (AChar p :: rs) s o c = Some r ->
  exists x s', s = x :: s' /\ p x = true /\ re_run rs s' o c = Some r.
Proof.
  simpl. destruct s as [|x s']; [discriminate|].
  destruct (p x) eqn:E; [|discriminate]. eauto.
Qed.

Lemma re_run_star_inv p rs s o c r :
  re_run (AStar p :: rs) s o c = Some r ->
  exists pre t, s = pre ++ t /\ forallb p pre = true /\ re_run rs t o c = Some r.
Proof.
  simpl. intros H.
  destruct (first_some_Some _ _ _ H) as (t & Ht & Hr).
  apply in_rev in Ht.
  destruct (star_suffixes_spec _ _ _ Ht) as (pre & -> & Hp). eauto.
Qed.

Lemma re_run_open rs s o c : re_run (AOpen :: rs) s o c = re_run rs s (s :: o) c.
Proof. reflexivity. Qed.

Lemma re_run_close rs s o os c :
  re_run (AClose :: rs) s (o :: os) c
  = re_run rs s os (c ++ [firstn (length o - length s) o]).
Proof. reflexivity. Qed.

Lemma re_run_end_inv rs s o c r :
  re_run (AEnd :: rs) s o c = Some r ->
  end_ok s = true /\ re_run rs s o c = Some r.
Proof. simpl. destruct (end_ok s); [auto|discriminate]. Qed.

Lemma re_run_nil_inv s o c r : re_run [] s o c = Some r -> r = c.
Proof. simpl. congruence. Qed.

Lemma firstn_captured (a b : pystr) : firstn (length (a ++ b) - length b) (a ++ b) = a.
Proof.
  rewrite length_app, Nat.add_sub, firstn_app, Nat.sub_diag, firstn_all. simpl.
  apply app_nil_r.
Qed.

Lemma firstn_captured_cons (x : ascii) (a b : pystr) :
  firstn (length (x :: a ++ b) - length b) (x :: a ++ b) = x :: a.
Proof. exact (firstn_captured (x :: a) b). Qed.

Lemma is_char_eq c x : is_char c x = true -> x = c.
Proof. unfold is_char. apply Ascii.eqb_eq. Qed.

Lemma end_ok_space s : end_ok s = true -> forallb is_space s = true.
Proof.
  destruct s as [|c [|]]; simpl; try discriminate; auto.
  intros H. apply Ascii.eqb_eq in H. subst. reflexivity.
Qed.

End Regex.

Ltac re_inv H :=
  repeat match type of H with
  | re_run (AChar (is_char _) :: _) _ _ _ = Some _ =>
      let x := fresh "x" in let s := fresh "s" in let Hx := fresh "Hx" in
      apply re_run_char_inv in H; destruct H as (x & s & -> & Hx & H);
      apply is_char_eq in Hx; subst x
  | re_run (AChar _ :: _) _ _ _ = Some _ =>
      let x := fresh "x" in let s := fresh "s" in let Hx := fresh "Hx" in
      apply re_run_char_inv in H; destruct H as (x & s & -> & Hx & H)
  | re_run (AStar _ :: _) _ _ _ = Some _ =>
      let pre := fresh "pre" in let t := fresh "t" in let Hp := fresh "Hp" in
      apply re_run_star_inv in H; destruct H as (pre & t & -> & Hp & H)
  | re_run (AOpen :: _) _ _ _ = Some _ => rewrite re_run_open in H
  | re_run (AClose :: _) _ (_ :: _) _ = Some _ => rewrite re_run_close in H
  | re_run (AEnd :: _) _ _ _ = Some _ =>
      let He := fresh "He" in
      apply re_run_end_inv in H; destruct H as (He & H)
  | re_run [] _ _ _ = Some _ => apply re_run_nil_inv in H
  end.

(** The shape of a line accepted by [ITEM_RE], and its two groups. *)
Lemma item_match_shape line caps :
  re_match ITEM_RE line = Some caps ->
  exists w0 inner w1 w2 ds w3,
    line = w0 ++ "["%char :: inner ++ "]"%char :: w1 ++ ":"%char :: w2 ++ ds ++ w3
    /\ caps = [inner; ds]
    /\ forallb is_space w0 = true /\ forallb not_newline inner = true
    /\ forallb is_space w1 = true /\ forallb is_space w2 = true
    /\ ds <> [] /\ forallb is_digit ds = true /\ forallb is_space w3 = true.
Proof.
  unfold re_match, ITEM_RE. cbn [lit map list_ascii_of_string app re_plus].
  intros H. re_inv H. subst caps.
  rewrite firstn_captured, firstn_captured_cons. simpl.
  match goal with
  | |- exists _ _ _ _ _ _,
         ?a ++ _ :: ?b ++ _ :: ?c ++ _ :: ?d ++ ?x :: ?e ++ ?f ++ ?g = _ /\ _ =>
      exists a, b, c, d, (x :: e), (f ++ g)
  end.
  repeat split; auto; try discriminate.
  - simpl. rewrite Hx, Hp3. reflexivity.
  - rewrite forallb_app, Hp4, (end_ok_space _ He). reflexivity.
Qed.

(** The shape of a line accepted by [STATE_RE], and its group. *)
Lemma state_match_shape line caps :
  re_match STATE_RE line = Some caps ->
  exists w0 w1 ds w2,
    line = w0 ++ py "State" ++ w1 ++ ds ++ w2
    /\ caps = [ds]
    /\ forallb is_space w0 = true /\ w1 <> [] /\ forallb is_space w1 = true
    /\ ds <> [] /\ forallb is_digit ds = true /\ forallb is_space w2 = true.
Proof.
  unfold re_match, STATE_RE. cbn [lit map list_ascii_of_string app re_plus].
  intros H. re_inv H. subst caps.
  rewrite firstn_captured_cons. simpl.
  match goal with
  | |- exists _ _ _ _, ?a ++ _ :: _ :: _ :: _ :: _ :: ?y :: ?b ++ ?x :: ?e ++ ?f ++ ?g = _ /\ _ =>
      exists a, (y :: b), (x :: e), (f ++ g)
  end.
  repeat split; auto; try discriminate;
    cbn [forallb]; rewrite ?forallb_app;
    repeat first [assumption | apply end_ok_space; assumption
                 | apply andb_true_intro; split].
Qed.

(** ** Integers *)

Lemma int_of_digits_acc_nonneg ds acc :
  (0 <= acc)%Z -> forallb is_digit ds = true ->
  (0 <= fold_left (fun acc c => acc * 10 + digit_value c)%Z ds acc)%Z.
Proof.
  revert acc; induction ds as [|c ds IH]; simpl; intros acc Hacc Hds; auto.
  apply andb_prop in Hds as [Hc Hds]. apply IH; auto.
  unfold is_digit in Hc. apply andb_prop in Hc as [Hc _].
  apply Nat.leb_le in Hc. unfold digit_value. lia.
Qed.

Lemma int_of_digits_nonneg ds :
  forallb is_digit ds = true -> (0 <= int_of_digits ds)%Z.
Proof. intros. apply int_of_digits_acc_nonneg; auto; lia. Qed.

Lemma str_int_inj a b : str_int a = str_int b -> a = b.
Proof.
  unfold str_int. intros H.
  apply (f_equal string_of_list_ascii) in H.
  rewrite !string_of_list_ascii_of_string in H.
  apply (f_equal DecimalString.NilEmpty.int_of_string) in H.
  rewrite !DecimalString.NilEmpty.isi in H. injection H as H.
  now apply DecimalZ.to_int_inj.
Qed.

Lemma str_int_eqb a b : str_eqb (str_int a) (str_int b) = Z.eqb a b.
Proof.
  unfold str_eqb. destruct (list_eq_dec ascii_dec _ _) as [E|E].
  - apply str_int_inj in E. subst. symmetry. apply Z.eqb_refl.
  - symmetry. apply Z.eqb_neq. intros ->. auto.
Qed.

Section ClosedForm.

Lemma mem_In n ns : mem n ns = true <-> In n ns.
Proof.
  unfold mem. rewrite existsb_exists. split.
  - intros (x & Hx & E). apply Z.eqb_eq in E. subst. auto.
  - intros H. exists n. split; auto. apply Z.eqb_refl.
Qed.

Lemma headers_app A B : headers (A ++ B) = headers A ++ headers B.
Proof.
  induction A as [|l A IH]; simpl; auto.
  destruct (classify l); simpl; rewrite ?IH; auto.
Qed.

Lemma last_header_app cur A B :
  last_header cur (A ++ B) = last_header (last_header cur A) B.
Proof.
  revert cur; induction A as [|l A IH]; simpl; auto.
  intros cur. destruct (classify l); auto.
Qed.

Lemma owned_app cur A B :
  owned cur (A ++ B) = owned cur A ++ owned (last_header cur A) B.
Proof.
  revert cur; induction A as [|l A IH]; simpl; auto.
  intros cur. destruct (classify l); auto.
  destruct cur; simpl; rewrite ?IH; auto.
Qed.

Lemma last_header_in cur A c :
  last_header cur A = Some c -> cur = Some c \/ In c (headers A).
Proof.
  revert cur; induction A as [|l A IH]; simpl; auto.
  intros cur H. destruct (classify l); simpl.
  - destruct (IH _ H) as [[= ->]|]; auto.
  - destruct (IH _ H); auto.
  - destruct (IH _ H); auto.
Qed.

Lemma owned_in cur A c it :
  In (c, it) (owned cur A) -> cur = Some c \/ In c (headers A).
Proof.
  revert cur; induction A as [|l A IH]; simpl; [tauto|].
  intros cur H. destruct (classify l); simpl.
  - destruct (IH _ H) as [[= ->]|]; auto.
  - destruct cur as [c'|]; [destruct H as [[= -> _]|H]; auto|];
      destruct (IH _ H); auto.
  - destruct (IH _ H); auto.
Qed.

Lemma items_of_absent n A : ~ In n (headers A) -> items_of n A = [].
Proof.
  intros Hn. unfold items_of.
  destruct (filter _ _) as [|[c it] rest] eqn:E; auto.
  exfalso. assert (Hin : In (c, it) (filter (fun p => Z.eqb (fst p) n) (owned None A)))
    by (rewrite E; left; auto).
  apply filter_In in Hin as [Hin Hc]. simpl in Hc. apply Z.eqb_eq in Hc. subst c.
  destruct (owned_in _ _ _ _ Hin) as [[=]|]; auto.
Qed.

Lemma first_seen_In_acc hs seen n :
  In n (fold_left add_new hs seen) <-> In n seen \/ In n hs.
Proof.
  revert seen; induction hs as [|h hs IH]; simpl; intros seen; [tauto|].
  rewrite IH. unfold add_new. destruct (mem h seen) eqn:E.
  - apply mem_In in E. split; [tauto|]. intros [|[->|]]; auto.
  - rewrite in_app_iff. simpl. tauto.
Qed.

Lemma first_seen_In n A : In n (first_seen A) <-> In n (headers A).
Proof. unfold first_seen. rewrite first_seen_In_acc. simpl. tauto. Qed.

Lemma first_seen_NoDup_acc hs seen :
  NoDup seen -> NoDup (fold_left add_new hs seen).
Proof.
  revert seen; induction hs as [|h hs IH]; simpl; auto.
  intros seen Hs. apply IH. unfold add_new. destruct (mem h seen) eqn:E; auto.
  apply NoDup_app; auto using NoDup_cons, NoDup_nil.
  intros x Hx [<-|[]]. apply mem_In in Hx. congruence.
Qed.

Lemma first_seen_NoDup A : NoDup (first_seen A).
Proof. apply first_seen_NoDup_acc, NoDup_nil. Qed.

Lemma first_seen_snoc A l :
  first_seen (A ++ [l]) =
  match classify l with
  | Header n => add_new (first_seen A) n
  | _ => first_seen A
  end.
Proof.
  unfold first_seen. rewrite headers_app, fold_left_app. simpl.
  destruct (classify l); reflexivity.
Qed.

Lemma items_of_snoc m A l :
  items_of m (A ++ [l]) =
  items_of m A ++
  match classify l, last_header None A with
  | ItemLine it, Some c => if Z.eqb c m then [it] else []
  | _, _ => []
  end.
Proof.
  unfold items_of. rewrite owned_app, filter_app, map_app. f_equal.
  simpl. destruct (classify l); auto.
  destruct (last_header None A); simpl; auto.
  destruct (Z.eqb z m); reflexivity.
Qed.

Lemma dict_get_table {V : Type} (g : Z -> V) K n :
  dict_get (str_int n) (map (fun k => (str_int k, g k)) K)
  = if mem n K then Some (g n) else None.
Proof.
  unfold mem. induction K as [|k K IH]; simpl; auto.
  rewrite str_int_eqb. destruct (Z.eqb n k) eqn:E; simpl; auto.
  apply Z.eqb_eq in E. subst. reflexivity.
Qed.

Lemma dict_set_table {V : Type} (g : Z -> V) K c v :
  In c K -> NoDup K ->
  dict_set (str_int c) v (map (fun k => (str_int k, g k)) K)
  = map (fun k => (str_int k, if Z.eqb k c then v else g k)) K.
Proof.
  induction K as [|k K IH]; simpl; [tauto|].
  intros Hc Hnd. inversion Hnd as [|? ? Hk Hnd']; subst.
  rewrite str_int_eqb. destruct (Z.eqb c k) eqn:E.
  - apply Z.eqb_eq in E. subst. rewrite Z.eqb_refl. f_equal.
    apply map_ext_in. intros a Ha. destruct (Z.eqb a k) eqn:E'; auto.
    apply Z.eqb_eq in E'. subst. contradiction.
  - rewrite Z.eqb_sym, E. f_equal. apply IH; auto.
    destruct Hc as [->|]; auto. rewrite Z.eqb_refl in E. discriminate.
Qed.

Lemma scan_line_after A l :
  scan_line (scan_after A) l = Some (scan_after (A ++ [l])).
Proof.
  unfold scan_line, scan_after, table.
  rewrite first_seen_snoc, last_header_app.
  unfold max_header. rewrite headers_app, fold_left_app.
  unfold classify. cbn [data current_state max_state_seen].
  destruct (re_match STATE_RE l) as [m|] eqn:Hs.
  - (* a header line *)
    cbn [last_header classify headers fold_left]. unfold classify. rewrite Hs.
    set (n := int_of_digits (group 1 m)).
    f_equal. f_equal.
    assert (Hitems : forall k, items_of k (A ++ [l]) = items_of k A).
    { intros k. rewrite items_of_snoc. unfold classify. rewrite Hs. apply app_nil_r. }
    unfold setdefault. rewrite dict_get_table. unfold add_new.
    destruct (mem n (first_seen A)) eqn:E.
    + apply map_ext. intros k. rewrite Hitems. reflexivity.
    + rewrite map_app. simpl. f_equal.
      * apply map_ext. intros k. rewrite Hitems. reflexivity.
      * rewrite Hitems, items_of_absent; auto.
        rewrite <- first_seen_In, <- mem_In, E. discriminate.
  - cbn [last_header classify headers fold_left]. unfold classify. rewrite Hs.
    destruct (re_match ITEM_RE l) as [m|] eqn:Hi.
    + destruct (last_header None A) as [c|] eqn:Hc.
      * (* an item line under a header *)
        assert (Hin : In c (first_seen A)).
        { apply first_seen_In. destruct (last_header_in _ _ _ Hc) as [[=]|]; auto. }
        rewrite dict_get_table.
        replace (mem c (first_seen A)) with true by (symmetry; apply mem_In; auto).
        rewrite dict_set_table; auto using first_seen_NoDup.
        do 2 f_equal. apply map_ext. intros k.
        rewrite items_of_snoc. unfold classify. rewrite Hs, Hi, Hc.
        destruct (Z.eqb_spec k c) as [->|Hne].
        -- rewrite Z.eqb_refl. reflexivity.
        -- rewrite (proj2 (Z.eqb_neq c k)) by congruence.
           rewrite app_nil_r. reflexivity.
      * (* an item line before any header *)
        do 2 f_equal. apply map_ext. intros k.
        rewrite items_of_snoc. unfold classify. rewrite Hs, Hi, Hc.
        rewrite app_nil_r. reflexivity.
    + (* any other line *)
      destruct (last_header None A); do 2 f_equal; apply map_ext; intros k;
        rewrite items_of_snoc; unfold classify; rewrite Hs, Hi;
        rewrite app_nil_r; reflexivity.
Qed.

Lemma scan_lines_after A ls :
  scan_lines (scan_after A) ls = Some (scan_after (A ++ ls)).
Proof.
  revert A; induction ls as [|l ls IH]; intros A; simpl.
  - rewrite app_nil_r. reflexivity.
  - rewrite scan_line_after, IH, <- app_assoc. reflexivity.
Qed.

Lemma scan_after_nil : scan_after [] = scan_init.
Proof. reflexivity. Qed.

Lemma convert_lines_closed lines b :
  convert_lines lines b =
  Some (if b then fill_empty (max_header lines + 1) (table lines) else table lines).
Proof.
  unfold convert_lines. rewrite <- scan_after_nil, scan_lines_after. reflexivity.
Qed.

End ClosedForm.

Section GapFill.

Lemma dict_get_None {V : Type} k (d : dict V) : dict_get k d = None <-> ~ In k (keys d).
Proof.
  induction d as [|[k' v] d IH]; simpl; [tauto|].
  unfold str_eqb. destruct (list_eq_dec ascii_dec k k') as [->|Hne].
  - split; [discriminate|]. intros H. exfalso. auto.
  - rewrite IH. split; [intros H [->|H']; auto|]. intros H H'. auto.
Qed.

Lemma dict_get_app {V : Type} k (d1 d2 : dict V) :
  dict_get k (d1 ++ d2) = match dict_get k d1 with Some v => Some v | None => dict_get k d2 end.
Proof.
  induction d1 as [|[k' v] d1 IH]; simpl; auto.
  destruct (str_eqb k k'); auto.
Qed.

Lemma keys_app {V : Type} (d1 d2 : dict V) : keys (d1 ++ d2) = keys d1 ++ keys d2.
Proof. apply map_app. Qed.

Lemma in_map_str_int s K : In (str_int s) (map str_int K) <-> In s K.
Proof.
  rewrite in_map_iff. split.
  - intros (x & Hx & Hin). apply str_int_inj in Hx. subst. auto.
  - intros H. eauto.
Qed.

Lemma fill_fold L (d : dict (list item)) K :
  keys d = map str_int K -> NoDup L ->
  fold_left (fun d s => setdefault (str_int s) [] d) L d
  = d ++ map (fun s => (str_int s, [])) (filter (fun s => negb (mem s K)) L).
Proof.
  revert d K; induction L as [|s L IH]; intros d K Hk HL; simpl.
  - rewrite app_nil_r. reflexivity.
  - inversion HL as [|? ? Hs HL']; subst.
    unfold setdefault. destruct (dict_get (str_int s) d) eqn:E.
    + assert (Hm : mem s K = true).
      { apply mem_In, in_map_str_int. rewrite <- Hk.
        destruct (in_dec (list_eq_dec ascii_dec) (str_int s) (keys d)) as [|Hn]; auto.
        apply dict_get_None in Hn. congruence. }
      rewrite Hm. simpl. apply IH; auto.
    + assert (Hm : mem s K = false).
      { apply dict_get_None in E. rewrite Hk, in_map_str_int, <- mem_In in E.
        destruct (mem s K); auto. exfalso; auto. }
      rewrite Hm. simpl.
      rewrite (IH _ (K ++ [s])); [| rewrite keys_app, Hk, map_app; reflexivity | auto].
      rewrite <- app_assoc. simpl. do 3 f_equal.
      apply filter_ext_in. intros x Hx. unfold mem. rewrite existsb_app. simpl.
      destruct (Z.eqb_spec x s) as [->|]; [contradiction|].
      rewrite orb_false_r. reflexivity.
Qed.

Lemma NoDup_map_inj {A B : Type} (f : A -> B) l :
  (forall x y, f x = f y -> x = y) -> NoDup l -> NoDup (map f l).
Proof.
  intros Hf. induction 1 as [|x l Hx Hl IH]; simpl; constructor; auto.
  rewrite in_map_iff. intros (y & Hy & Hin). apply Hf in Hy. subst. auto.
Qed.

Lemma range_NoDup n : NoDup (range n).
Proof. apply NoDup_map_inj; [intros; lia|]. apply seq_NoDup. Qed.

Lemma in_range s n : In s (range n) <-> (0 <= s < n)%Z.
Proof.
  unfold range. rewrite in_map_iff. split.
  - intros (x & <- & Hx). apply in_seq in Hx. lia.
  - intros H. exists (Z.to_nat s). rewrite in_seq. lia.
Qed.

Lemma keys_table lines : keys (table lines) = map str_int (first_seen lines).
Proof. unfold keys, table. rewrite map_map. reflexivity. Qed.

Lemma fill_empty_table lines n :
  fill_empty n (table lines)
  = table lines ++ map (fun s => (str_int s, [])) (gaps lines n).
Proof. apply fill_fold; [apply keys_table | apply range_NoDup]. Qed.

Lemma header_nonneg l n : classify l = Header n -> (0 <= n)%Z.
Proof.
  unfold classify. destruct (re_match STATE_RE l) as [m|] eqn:Hs.
  - intros [= <-]. apply state_match_shape in Hs.
    destruct Hs as (w0 & w1 & ds & w2 & _ & -> & _ & _ & _ & _ & Hd & _).
    apply int_of_digits_nonneg. exact Hd.
  - destruct (re_match ITEM_RE l); discriminate.
Qed.

Lemma headers_nonneg lines n : In n (headers lines) -> (0 <= n)%Z.
Proof.
  induction lines as [|l ls IH]; simpl; [tauto|].
  destruct (classify l) eqn:E; auto.
  intros [<-|]; eauto using header_nonneg.
Qed.

Lemma fold_max_ge hs a : (a <= fold_left Z.max hs a)%Z /\
  forall s, In s hs -> (s <= fold_left Z.max hs a)%Z.
Proof.
  revert a; induction hs as [|h hs IH]; simpl; intros a; [split; [lia|tauto]|].
  destruct (IH (Z.max a h)) as [H1 H2]. split; [lia|].
  intros s [<-|Hs]; [lia|auto].
Qed.

Lemma headers_none_free S :
  Forall (fun l => is_header l = false) S ->
  headers S = [] /\ (forall cur, last_header cur S = cur) /\
  (forall cur, owned cur S =
     match cur with Some c => map (fun it => (c, it)) (item_lines S) | None => [] end).
Proof.
  induction 1 as [|l S Hl HS IH]; simpl; [split; [|split]; auto; intros []; auto|].
  destruct IH as (IH1 & IH2 & IH3). unfold is_header in Hl.
  destruct (classify l); [discriminate| |]; repeat split; auto;
    intros []; rewrite IH3; auto.
Qed.

End GapFill.

(** * Properties of [convert] *)

(** C1: every item line between a [State n] header and the next header
    (or the end of the input) is appended to the list of state [n], and
    these items keep their input order inside that list. *)
Theorem convert_segment_items P h S Q n b d :
  classify h = Header n ->
  Forall (fun l => is_header l = false) S ->
  convert_lines (P ++ h :: S ++ Q) b = Some d ->
  exists xs ys, dict_get (str_int n) d = Some (xs ++ item_lines S ++ ys).
Proof.
  intros Hh HS Hd. rewrite convert_lines_closed in Hd. injection Hd as <-.
  set (L := P ++ h :: S ++ Q).
  assert (Hn : In n (headers L)).
  { unfold L. rewrite headers_app. apply in_or_app. right. simpl. rewrite Hh. left; auto. }
  assert (Hget : dict_get (str_int n) (table L) = Some (items_of n L)).
  { unfold table. rewrite dict_get_table.
    replace (mem n (first_seen L)) with true; auto.
    symmetry. apply mem_In, first_seen_In. auto. }
  destruct (headers_none_free S HS) as (_ & HS2 & HS3).
  exists (map snd (filter (fun p => Z.eqb (fst p) n) (owned None P))),
         (map snd (filter (fun p => Z.eqb (fst p) n) (owned (Some n) Q))).
  assert (Hitems : items_of n L =
    map snd (filter (fun p => Z.eqb (fst p) n) (owned None P)) ++ item_lines S ++
    map snd (filter (fun p => Z.eqb (fst p) n) (owned (Some n) Q))).
  { unfold items_of, L. rewrite owned_app. cbn [owned]. rewrite Hh.
    rewrite owned_app, HS3, HS2, !filter_app, !map_app. f_equal. f_equal.
    clear. induction (item_lines S) as [|it its IH]; simpl; auto.
    rewrite Z.eqb_refl. simpl. f_equal. exact IH. }
  destruct b.
  - rewrite fill_empty_table, dict_get_app, Hget, Hitems. reflexivity.
  - rewrite Hget, Hitems. reflexivity.
Qed.

(** C2: with gap-filling the keys are exactly [str(0) .. str(maxState)],
    [maxState] being the largest header index; no header, no key. *)
Theorem convert_fill_keys lines d :
  convert_lines lines true = Some d ->
  (forall k, In k (keys d) <->
     exists s, (0 <= s <= max_header lines)%Z /\ k = str_int s)
  /\ (headers lines = [] -> d = []).
Proof.
  rewrite convert_lines_closed, fill_empty_table. intros [= <-].
  split.
  - intros k. rewrite keys_app, keys_table, in_app_iff. unfold keys.
    rewrite map_map. simpl. split.
    + intros [Hk|Hk]; apply in_map_iff in Hk as (s & <- & Hs); exists s; split; auto.
      * apply first_seen_In in Hs.
        pose proof (headers_nonneg _ _ Hs).
        pose proof (proj2 (fold_max_ge (headers lines) (-1)%Z) s Hs).
        unfold max_header. lia.
      * unfold gaps in Hs. apply filter_In in Hs as [Hs _].
        apply in_range in Hs. lia.
    + intros (s & Hs & ->). destruct (mem s (first_seen lines)) eqn:E.
      * left. apply in_map, mem_In, E.
      * right. apply in_map_iff. exists s. split; auto.
        unfold gaps. apply filter_In. rewrite E. split; auto.
        apply in_range. lia.
  - intros Hh. unfold table, gaps, first_seen, max_header. rewrite Hh. reflexivity.
Qed.

(** C5: without gap-filling the keys are the header indices, each once,
    in the order of their first appearance, whether or not they have
    items. *)
Theorem convert_no_fill_keys lines d :
  convert_lines lines false = Some d ->
  keys d = map str_int (first_seen lines)
  /\ (forall k, In k (keys d) <-> exists n, In n (headers lines) /\ k = str_int n)
  /\ NoDup (keys d).
Proof.
  rewrite convert_lines_closed. intros [= <-]. rewrite keys_table.
  split; [reflexivity|split].
  - intros k. rewrite in_map_iff. split.
    + intros (n & <- & Hn). exists n. split; auto. apply first_seen_In. auto.
    + intros (n & Hn & ->). exists n. split; auto. apply first_seen_In. auto.
  - apply NoDup_map_inj; [apply str_int_inj | apply first_seen_NoDup].
Qed.

(** C6 (as stated, refuted): [State 2] then [State 0] gives, with
    gap-filling, the keys [2], [0], [1] in that order. *)
Lemma convert_fill_order_counterexample :
  ~ (forall lines d, convert_lines lines true = Some d -> ascending_keys d).
Proof.
  intros H.
  destruct (H (lines_of ["State 2"; "State 0"]%string)
              [(str_int 2, []); (str_int 0, []); (str_int 1, [])]) as (ns & Hk & Hs).
  - vm_compute. reflexivity.
  - change (map str_int [2; 0; 1]%Z = map str_int ns) in Hk.
    destruct ns as [|a [|b [|c [|]]]]; try discriminate.
    simpl in Hk. injection Hk as Ha Hb Hc.
    apply str_int_inj in Ha, Hb, Hc. subst.
    inversion Hs as [|? ? Hs1 Hf]. inversion Hf as [|? ? Hlt]. lia.
Qed.

(** C6 (amended): with gap-filling the keys are the header indices in the
    order of their first appearance, followed by the indices of
    [0..maxState] never seen as headers, in ascending order. *)
Theorem convert_fill_order lines d :
  convert_lines lines true = Some d ->
  keys d = map str_int (first_seen lines ++ gaps lines (max_header lines + 1)).
Proof.
  rewrite convert_lines_closed, fill_empty_table. intros [= <-].
  rewrite keys_app, keys_table, map_app. unfold keys. rewrite map_map. reflexivity.
Qed.

(** C7: lines before the first header change nothing in the result and
    raise no error, with or without gap-filling. *)
Theorem convert_drops_leading_items P R b :
  Forall (fun l => is_header l = false) P ->
  convert_lines (P ++ R) b = convert_lines R b /\ convert_lines (P ++ R) b <> None.
Proof.
  intros HP. destruct (headers_none_free P HP) as (H1 & H2 & H3).
  rewrite !convert_lines_closed. split; [|discriminate].
  assert (Hh : headers (P ++ R) = headers R) by (rewrite headers_app, H1; reflexivity).
  assert (Hf : first_seen (P ++ R) = first_seen R) by (unfold first_seen; rewrite Hh; reflexivity).
  assert (Hm : max_header (P ++ R) = max_header R) by (unfold max_header; rewrite Hh; reflexivity).
  assert (Ht : table (P ++ R) = table R).
  { unfold table. rewrite Hf. apply map_ext. intros n. unfold items_of.
    rewrite owned_app, H2, H3. reflexivity. }
  rewrite Ht, Hm. reflexivity.
Qed.

Lemma first_seen_extends hs seen : exists rest, fold_left add_new hs seen = seen ++ rest.
Proof.
  revert seen; induction hs as [|h hs IH]; simpl; intros seen.
  - exists []. symmetry. apply app_nil_r.
  - destruct (IH (add_new seen h)) as (rest & ->). unfold add_new.
    destruct (mem h seen); [eauto|]. exists (h :: rest). rewrite <- app_assoc. reflexivity.
Qed.

Lemma convert_key_at lines b d i n :
  convert_lines lines b = Some d -> nth_error (first_seen lines) i = Some n ->
  nth_error (keys d) i = Some (str_int n) /\ dict_get (str_int n) d = Some (items_of n lines).
Proof.
  intros Hd Hi. rewrite convert_lines_closed in Hd. injection Hd as <-.
  assert (Hlt : i < length (first_seen lines)) by (apply nth_error_Some; congruence).
  assert (Hk : nth_error (keys (table lines)) i = Some (str_int n))
    by (rewrite keys_table, nth_error_map, Hi; reflexivity).
  assert (Hg : dict_get (str_int n) (table lines) = Some (items_of n lines)).
  { unfold table. rewrite dict_get_table.
    replace (mem n (first_seen lines)) with true; auto.
    symmetry. apply mem_In. eapply nth_error_In. eauto. }
  destruct b; auto.
  rewrite fill_empty_table, keys_app, dict_get_app, Hg, nth_error_app1; auto.
  rewrite keys_table, length_map. exact Hlt.
Qed.

(** C9: a repeated [State n] header neither clears nor moves state [n]:
    the items after it are appended to those collected before, and the
    key keeps the position it had from its first header. *)
Theorem convert_repeated_header A h B n b dA d :
  classify h = Header n ->
  In n (headers A) ->
  convert_lines A b = Some dA ->
  convert_lines (A ++ h :: B) b = Some d ->
  exists xs i,
    dict_get (str_int n) dA = Some xs
    /\ dict_get (str_int n) d
       = Some (xs ++ map snd (filter (fun p => Z.eqb (fst p) n) (owned (Some n) B)))
    /\ nth_error (keys dA) i = Some (str_int n)
    /\ nth_error (keys d) i = Some (str_int n).
Proof.
  intros Hh Hn HdA Hd.
  apply first_seen_In, In_nth_error in Hn as (i & Hi).
  assert (Hi' : nth_error (first_seen (A ++ h :: B)) i = Some n).
  { unfold first_seen in *. rewrite headers_app, fold_left_app.
    destruct (first_seen_extends (headers (h :: B)) (fold_left add_new (headers A) []))
      as (rest & ->).
    rewrite nth_error_app1; auto. apply nth_error_Some. congruence. }
  destruct (convert_key_at _ _ _ _ _ HdA Hi) as [HkA HgA].
  destruct (convert_key_at _ _ _ _ _ Hd Hi') as [Hk Hg].
  exists (items_of n A), i. repeat split; auto.
  rewrite Hg. f_equal. unfold items_of.
  rewrite owned_app. cbn [owned]. rewrite Hh, filter_app, map_app. reflexivity.
Qed.

(** C8: every value in the result is a non-negative integer: the value
    group of [ITEM_RE] is a non-empty run of digits, after a colon and
    whitespace, up to trailing whitespace; a line such as [[X]: -5] or
    [[X]: +5] is no item line, and leaves the scan as it was. *)
Theorem convert_values_nonneg :
  (forall lines b d k xs it,
     convert_lines lines b = Some d -> In (k, xs) d -> In it xs -> (0 <= value it)%Z)
  /\ (forall line caps,
     re_match ITEM_RE line = Some caps ->
     exists pre w1 w2,
       line = pre ++ ":"%char :: w1 ++ group 2 caps ++ w2
       /\ forallb is_space w1 = true /\ forallb is_space w2 = true
       /\ group 2 caps <> [] /\ forallb is_digit (group 2 caps) = true)
  /\ (forall st, scan_line st (py "[X]: -5") = Some st)
  /\ (forall st, scan_line st (py "[X]: +5") = Some st).
Proof.
  split; [|split; [|split]].
  - intros lines b d k xs it Hd Hin Hit.
    rewrite convert_lines_closed in Hd. injection Hd as <-.
    assert (Htab : forall k xs, In (k, xs) (table lines) -> In it xs -> (0 <= value it)%Z).
    { clear. intros k xs Hin Hit. unfold table in Hin. apply in_map_iff in Hin.
      destruct Hin as (n & [= _ <-] & _). unfold items_of in Hit.
      apply in_map_iff in Hit as ([c it'] & <- & Hit). apply filter_In in Hit as [Hit _].
      simpl. clear n. revert Hit. generalize (@None Z) as cur.
      induction lines as [|l ls IH]; simpl; [tauto|]. intros cur.
      destruct (classify l) eqn:E; [apply IH| |apply IH].
      destruct cur as [c0|]; [|apply IH].
      intros [[= <- <-]|]; [|eapply IH; eauto].
      unfold classify in E. destruct (re_match STATE_RE l); [discriminate|].
      destruct (re_match ITEM_RE l) as [m|] eqn:Hi; [|discriminate].
      injection E as <-. simpl. apply item_match_shape in Hi.
      destruct Hi as (w0 & inner & w1 & w2 & ds & w3 & _ & -> & _ & _ & _ & _ & _ & Hd & _).
      apply int_of_digits_nonneg. exact Hd. }
    destruct b; eauto.
    rewrite fill_empty_table in Hin. apply in_app_iff in Hin as [|Hin]; eauto.
    apply in_map_iff in Hin as (s & [= _ <-] & _). destruct Hit.
  - intros line caps H. apply item_match_shape in H.
    destruct H as (w0 & inner & w1 & w2 & ds & w3 & -> & -> & _ & _ & _ & H2 & Hn & Hd & H3).
    exists (w0 ++ "["%char :: inner ++ "]"%char :: w1), w2, w3.
    repeat split; auto. simpl. rewrite <- app_assoc. simpl. rewrite <- app_assoc. reflexivity.
  - intros st. reflexivity.
  - intros st. reflexivity.
Qed.

(** C10: the greedy key group of [ITEM_RE] reaches the last closing
    bracket of the line: the text after the captured group and its closing
    bracket holds no closing bracket, while the group itself may hold
    some, as in the line [a], [b]: 5 (key text: a], [b). *)
Theorem item_key_greedy line caps :
  re_match ITEM_RE line = Some caps ->
  exists w r,
    line = w ++ "["%char :: group 1 caps ++ "]"%char :: r
    /\ forallb is_space w = true
    /\ ~ In "]"%char r.
Proof.
  intros H. apply item_match_shape in H.
  destruct H as (w0 & inner & w1 & w2 & ds & w3 & -> & -> & Hw0 & _ & Hw1 & Hw2 & _ & Hd & Hw3).
  exists w0, (w1 ++ ":"%char :: w2 ++ ds ++ w3). simpl. split; [reflexivity|split; auto].
  assert (Hno : forall p s, forallb p s = true -> p "]"%char = false -> ~ In "]"%char s).
  { intros p s Hs Hp Hin. rewrite forallb_forall in Hs. apply Hs in Hin. congruence. }
  rewrite in_app_iff. intros [Hin|[Hin|Hin]].
  - exact (Hno _ _ Hw1 eq_refl Hin).
  - discriminate.
  - rewrite !in_app_iff in Hin. destruct Hin as [Hin|[Hin|Hin]].
    + exact (Hno _ _ Hw2 eq_refl Hin).
    + exact (Hno _ _ Hd eq_refl Hin).
    + exact (Hno _ _ Hw3 eq_refl Hin).
Qed.

(** * Properties of [normalize_key] *)

Section Normalize.

Lemma lstrip_spec s :
  exists l, s = l ++ lstrip s /\ forallb is_space l = true
    /\ (forall c t, lstrip s = c :: t -> is_space c = false).
Proof.
  induction s as [|c s IH]; simpl.
  - exists []. repeat split; auto. discriminate.
  - destruct (is_space c) eqn:E.
    + destruct IH as (l & Hs & Hl & Hh). exists (c :: l). simpl.
      rewrite E, Hl. rewrite <- Hs. auto.
    + exists []. repeat split; auto. intros c' t [= <- _]. exact E.
Qed.

Lemma lstrip_id t : (forall c t', t = c :: t' -> is_space c = false) -> lstrip t = t.
Proof.
  destruct t as [|c t]; simpl; auto. intros H. rewrite (H c t eq_refl). reflexivity.
Qed.

Lemma forallb_rev {A : Type} (f : A -> bool) l : forallb f (rev l) = forallb f l.
Proof.
  apply Bool.eq_iff_eq_true. rewrite !forallb_forall.
  split; intros H x Hx; apply H; [apply in_rev | apply in_rev in Hx]; auto.
  rewrite rev_involutive. auto.
Qed.

Lemma strip_trimmed p : trimmed p (strip p).
Proof.
  unfold strip.
  destruct (lstrip_spec p) as (l & Hp & Hl & Hu).
  set (u := lstrip p) in *.
  destruct (lstrip_spec (rev u)) as (l' & Hru & Hl' & Hv).
  set (v := lstrip (rev u)) in *.
  exists l, (rev l'). repeat split; auto.
  - rewrite Hp. f_equal. rewrite <- (rev_involutive u), Hru, rev_app_distr. reflexivity.
  - rewrite forallb_rev. exact Hl'.
  - intros c t' Ht. apply (Hu c (t' ++ rev l')).
    rewrite <- (rev_involutive u), Hru, rev_app_distr, Ht. reflexivity.
  - intros t' c Ht. apply (Hv c (rev t')).
    rewrite <- (rev_involutive v), Ht, rev_app_distr. reflexivity.
Qed.

Lemma strip_id t :
  (forall c t', t = c :: t' -> is_space c = false) ->
  (forall t' c, t = t' ++ [c] -> is_space c = false) -> strip t = t.
Proof.
  intros Hh Hl. unfold strip. rewrite (lstrip_id t Hh).
  rewrite lstrip_id; [apply rev_involutive|].
  intros c t' Ht. apply (Hl (rev t')).
  rewrite <- (rev_involutive t), Ht. reflexivity.
Qed.

Lemma strip_strip p : strip (strip p) = strip p.
Proof.
  destruct (strip_trimmed p) as (l & r & _ & _ & _ & Hh & Hl). apply strip_id; auto.
Qed.

Lemma strip_space_cons t : strip (" "%char :: t) = strip t.
Proof. reflexivity. Qed.

Lemma strip_incl p x : In x (strip p) -> In x p.
Proof.
  destruct (strip_trimmed p) as (l & r & Hp & _). intros H.
  rewrite Hp. apply in_or_app. right. apply in_or_app. left. exact H.
Qed.

Lemma split_on_cons c s : exists r rs, split_on c s = r :: rs.
Proof.
  destruct s as [|x s]; simpl; [eauto|].
  destruct (Ascii.eqb x c); [eauto|]. destruct (split_on c s); eauto.
Qed.

Lemma split_on_app c k rest :
  ~ In c k ->
  split_on c (k ++ rest) = (k ++ hd [] (split_on c rest)) :: tl (split_on c rest).
Proof.
  induction k as [|x k IH]; simpl; intros Hk.
  - destruct (split_on_cons c rest) as (r & rs & ->). reflexivity.
  - rewrite IH by tauto.
    destruct (Ascii.eqb_spec x c) as [->|]; [tauto|]. reflexivity.
Qed.

Lemma split_on_nocomma c s : Forall (fun p => ~ In c p) (split_on c s).
Proof.
  induction s as [|x s IH]; simpl; [constructor; auto; constructor|].
  destruct (Ascii.eqb_spec x c) as [->|Hx]; [constructor; auto|].
  destruct (split_on c s) as [|r rs]; [constructor; [intros [->|[]]; auto|constructor]|].
  inversion IH; subst. constructor; auto. intros [->|]; auto.
Qed.

Lemma join_cons2 sep p q ps : join sep (p :: q :: ps) = p ++ sep ++ join sep (q :: ps).
Proof. reflexivity. Qed.

Lemma split_on_join c pieces :
  pieces <> [] -> Forall (fun p => ~ In c p) pieces ->
  split_on c (join [c] pieces) = pieces.
Proof.
  induction pieces as [|p [|q ps] IH]; intros Hne Hall; [congruence| |].
  - inversion Hall; subst. simpl.
    rewrite <- (app_nil_r p) at 1. rewrite split_on_app by auto.
    simpl. rewrite app_nil_r. reflexivity.
  - inversion Hall; subst. rewrite join_cons2.
    rewrite split_on_app by auto. cbn [app split_on]. rewrite Ascii.eqb_refl.
    cbn [hd tl]. rewrite app_nil_r. f_equal. apply IH; [discriminate|auto].
Qed.

Lemma keep_part_dropped t : keep_part t = negb (dropped_token t).
Proof.
  unfold keep_part, dropped_token. cbn [existsb].
  destruct (str_eqb t (py "T")), (str_eqb t (py "NT")), (str_eqb t []); reflexivity.
Qed.

Lemma split_on_join_space ks k :
  Forall (fun p => ~ In ","%char p) (k :: ks) ->
  split_on "," (join (py ", ") (k :: ks)) = k :: map (cons " "%char) ks.
Proof.
  revert k; induction ks as [|k2 ks IH]; intros k Hall; inversion Hall; subst.
  - rewrite <- (app_nil_r k) at 1. cbn [join]. rewrite split_on_app by auto.
    simpl. rewrite app_nil_r. reflexivity.
  - rewrite join_cons2. cbn [py list_ascii_of_string app].
    rewrite split_on_app by auto. cbn [split_on]. rewrite Ascii.eqb_refl.
    cbn [hd tl]. rewrite IH by auto.
    replace (Ascii.eqb " " ",") with false by reflexivity.
    rewrite app_nil_r. reflexivity.
Qed.

End Normalize.

Lemma Forall2_strip l : Forall2 trimmed l (map strip l).
Proof. induction l; constructor; auto using strip_trimmed. Qed.

(** C3: [normalize_key] cuts its argument at every comma, drops the
    tokens that after trimming are exactly [T], [NT] or empty, trims the
    others and keeps them verbatim otherwise, and joins them with a
    comma and a space inside square brackets. *)
Theorem normalize_key_tokens inner pieces :
  join [","%char] pieces = inner ->
  Forall (fun p => ~ In ","%char p) pieces ->
  exists ts, Forall2 trimmed pieces ts
    /\ normalize_key inner
       = "["%char :: join (py ", ") (filter (fun t => negb (dropped_token t)) ts)
         ++ ["]"%char].
Proof.
  intros Hj Hn. destruct pieces as [|p ps].
  - subst inner. exists []. split; [constructor|reflexivity].
  - exists (map strip (p :: ps)). split; [apply Forall2_strip|].
    rewrite <- Hj. unfold normalize_key. cbv zeta.
    rewrite split_on_join; [|discriminate|exact Hn].
    rewrite (filter_ext _ _ keep_part_dropped). reflexivity.
Qed.

(** C4: normalizing the text between the brackets of a normalized key
    gives that key back; this text never holds [T], [NT] or empty
    tokens. *)
Theorem normalize_key_idempotent inner :
  normalize_key (key_inner (normalize_key inner)) = normalize_key inner.
Proof.
  unfold normalize_key at 2 3. cbv zeta.
  set (ks := filter keep_part (map strip (split_on "," inner))).
  assert (Hks : Forall (fun k => ~ In ","%char k /\ strip k = k /\ keep_part k = true) ks).
  { apply Forall_forall. intros k Hk. unfold ks in Hk.
    apply filter_In in Hk as [Hk Hkeep]. apply in_map_iff in Hk as (p & <- & Hp).
    pose proof (proj1 (Forall_forall _ _) (split_on_nocomma "," inner) p Hp) as Hc.
    repeat split; auto using strip_strip. intros H. apply Hc, strip_incl, H. }
  replace (key_inner (py "[" ++ join (py ", ") ks ++ py "]")) with (join (py ", ") ks)
    by (unfold key_inner; cbn [py list_ascii_of_string app tl];
        rewrite removelast_last; reflexivity).
  destruct ks as [|k ks']; [reflexivity|].
  unfold normalize_key. cbv zeta.
  assert (Hnc : Forall (fun p => ~ In ","%char p) (k :: ks'))
    by (eapply Forall_impl; [|exact Hks]; intros a Ha; exact (proj1 Ha)).
  rewrite split_on_join_space by exact Hnc.
  inversion Hks as [|? ? [_ [Hk1 Hk2]] Hks']; subst.
  cbn [map filter]. rewrite Hk1, Hk2. do 3 f_equal.
  rewrite map_map. clear -Hks'.
  f_equal. clear k. induction Hks' as [|k2 ks [_ [Hs Hkp]] _ IH]; [reflexivity|].
  cbn [map filter]. rewrite strip_space_cons, Hs, Hkp, IH. reflexivity.
Qed.

(** * Witnesses on concrete inputs *)

Lemma convert_segment_items_witness :
  classify (py "State 3") = Header 3
  /\ Forall (fun l => is_header l = false) (lines_of ["[a]: 1"; "junk"; "[T, b]: 2"]%string)
  /\ convert_lines (lines_of ["[z]: 0"; "State 3"; "[a]: 1"; "junk"; "[T, b]: 2";
                              "State 1"; "[c]: 3"]%string) true
     = Some [(py "3", [mk_item (py "[a]") 1; mk_item (py "[b]") 2]);
             (py "1", [mk_item (py "[c]") 3]); (py "0", @nil item); (py "2", @nil item)]
  /\ exists xs ys,
       dict_get (str_int 3)
         [(py "3", [mk_item (py "[a]") 1; mk_item (py "[b]") 2]);
          (py "1", [mk_item (py "[c]") 3]); (py "0", @nil item); (py "2", @nil item)]
       = Some (xs ++ item_lines (lines_of ["[a]: 1"; "junk"; "[T, b]: 2"]%string) ++ ys).
Proof.
  assert (H1 : classify (py "State 3") = Header 3) by (vm_compute; reflexivity).
  assert (H2 : Forall (fun l => is_header l = false)
                 (lines_of ["[a]: 1"; "junk"; "[T, b]: 2"]%string)) by repeat constructor.
  assert (H3 : convert_lines (lines_of ["[z]: 0"; "State 3"; "[a]: 1"; "junk"; "[T, b]: 2";
                                        "State 1"; "[c]: 3"]%string) true
     = Some [(py "3", [mk_item (py "[a]") 1; mk_item (py "[b]") 2]);
             (py "1", [mk_item (py "[c]") 3]); (py "0", @nil item); (py "2", @nil item)])
    by (vm_compute; reflexivity).
  refine (conj H1 (conj H2 (conj H3 _))).
  exact (convert_segment_items (lines_of ["[z]: 0"]%string) (py "State 3")
           (lines_of ["[a]: 1"; "junk"; "[T, b]: 2"]%string)
           (lines_of ["State 1"; "[c]: 3"]%string) 3 true _ H1 H2 H3).
Defined.

Lemma convert_fill_keys_witness :
  convert_lines (lines_of ["State 2"; "[x]: 1"]%string) true
  = Some [(py "2", [mk_item (py "[x]") 1]); (py "0", @nil item); (py "1", @nil item)]
  /\ (forall k, In k (keys [(py "2", [mk_item (py "[x]") 1]); (py "0", @nil item); (py "1", @nil item)])
        <-> exists s, (0 <= s <= max_header (lines_of ["State 2"; "[x]: 1"]%string))%Z
                      /\ k = str_int s)
  /\ (headers (lines_of ["State 2"; "[x]: 1"]%string) = [] ->
      [(py "2", [mk_item (py "[x]") 1]); (py "0", @nil item); (py "1", @nil item)] = []).
Proof.
  assert (H : convert_lines (lines_of ["State 2"; "[x]: 1"]%string) true
    = Some [(py "2", [mk_item (py "[x]") 1]); (py "0", @nil item); (py "1", @nil item)])
    by (vm_compute; reflexivity).
  exact (conj H (convert_fill_keys _ _ H)).
Defined.

Lemma normalize_key_tokens_witness :
  join [","%char] (lines_of [" T"; " ID "; ""; " ="; " NT"; " Expr"]%string)
    = py " T, ID ,, =, NT, Expr"
  /\ Forall (fun p => ~ In ","%char p) (lines_of [" T"; " ID "; ""; " ="; " NT"; " Expr"]%string)
  /\ exists ts, Forall2 trimmed (lines_of [" T"; " ID "; ""; " ="; " NT"; " Expr"]%string) ts
    /\ normalize_key (py " T, ID ,, =, NT, Expr")
       = "["%char :: join (py ", ") (filter (fun t => negb (dropped_token t)) ts)
         ++ ["]"%char].
Proof.
  assert (H1 : join [","%char] (lines_of [" T"; " ID "; ""; " ="; " NT"; " Expr"]%string)
               = py " T, ID ,, =, NT, Expr") by reflexivity.
  assert (H2 : Forall (fun p => ~ In ","%char p)
                 (lines_of [" T"; " ID "; ""; " ="; " NT"; " Expr"]%string))
    by (repeat constructor; simpl; intuition discriminate).
  exact (conj H1 (conj H2 (normalize_key_tokens _ _ H1 H2))).
Defined.

Lemma convert_no_fill_keys_witness :
  convert_lines (lines_of ["State 2"; "State 0"; "State 2"]%string) false
  = Some [(py "2", @nil item); (py "0", @nil item)]
  /\ keys [(py "2", @nil item); (py "0", @nil item)]
     = map str_int (first_seen (lines_of ["State 2"; "State 0"; "State 2"]%string))
  /\ (forall k, In k (keys [(py "2", @nil item); (py "0", @nil item)]) <->
        exists n, In n (headers (lines_of ["State 2"; "State 0"; "State 2"]%string))
                  /\ k = str_int n)
  /\ NoDup (keys [(py "2", @nil item); (py "0", @nil item)]).
Proof.
  assert (H : convert_lines (lines_of ["State 2"; "State 0"; "State 2"]%string) false
              = Some [(py "2", @nil item); (py "0", @nil item)]) by (vm_compute; reflexivity).
  exact (conj H (convert_no_fill_keys _ _ H)).
Defined.

Lemma convert_fill_order_witness :
  convert_lines (lines_of ["State 2"; "State 0"]%string) true
  = Some [(py "2", @nil item); (py "0", @nil item); (py "1", @nil item)]
  /\ keys [(py "2", @nil item); (py "0", @nil item); (py "1", @nil item)]
     = map str_int (first_seen (lines_of ["State 2"; "State 0"]%string)
                    ++ gaps (lines_of ["State 2"; "State 0"]%string)
                         (max_header (lines_of ["State 2"; "State 0"]%string) + 1)).
Proof.
  assert (H : convert_lines (lines_of ["State 2"; "State 0"]%string) true
              = Some [(py "2", @nil item); (py "0", @nil item); (py "1", @nil item)]) by (vm_compute; reflexivity).
  exact (conj H (convert_fill_order _ _ H)).
Defined.

Lemma convert_drops_leading_items_witness :
  Forall (fun l => is_header l = false) (lines_of ["[a]: 1"; "junk"]%string)
  /\ convert_lines (lines_of ["[a]: 1"; "junk"]%string ++ lines_of ["State 0"; "[b]: 2"]%string) true
     = convert_lines (lines_of ["State 0"; "[b]: 2"]%string) true
  /\ convert_lines (lines_of ["[a]: 1"; "junk"]%string ++ lines_of ["State 0"; "[b]: 2"]%string) true
     <> None.
Proof.
  assert (H : Forall (fun l => is_header l = false) (lines_of ["[a]: 1"; "junk"]%string))
    by repeat constructor.
  exact (conj H (convert_drops_leading_items _ _ true H)).
Defined.

Lemma convert_values_nonneg_witness :
  convert_lines (lines_of ["State 0"; "[X]: -5"; "[Y]: 3"]%string) true
  = Some [(py "0", [mk_item (py "[Y]") 3])]
  /\ In (py "0", [mk_item (py "[Y]") 3]) [(py "0", [mk_item (py "[Y]") 3])]
  /\ In (mk_item (py "[Y]") 3) [mk_item (py "[Y]") 3]
  /\ (0 <= value (mk_item (py "[Y]") 3))%Z.
Proof.
  assert (H1 : convert_lines (lines_of ["State 0"; "[X]: -5"; "[Y]: 3"]%string) true
               = Some [(py "0", [mk_item (py "[Y]") 3])]) by (vm_compute; reflexivity).
  assert (H2 : In (py "0", [mk_item (py "[Y]") 3]) [(py "0", [mk_item (py "[Y]") 3])])
    by (left; reflexivity).
  assert (H3 : In (mk_item (py "[Y]") 3) [mk_item (py "[Y]") 3]) by (left; reflexivity).
  exact (conj H1 (conj H2 (conj H3 (proj1 convert_values_nonneg _ _ _ _ _ _ H1 H2 H3)))).
Defined.

Lemma convert_repeated_header_witness :
  classify (py "State 1") = Header 1
  /\ In 1%Z (headers (lines_of ["State 1"; "[a]: 1"; "State 0"]%string))
  /\ convert_lines (lines_of ["State 1"; "[a]: 1"; "State 0"]%string) false
     = Some [(py "1", [mk_item (py "[a]") 1]); (py "0", @nil item)]
  /\ convert_lines (lines_of ["State 1"; "[a]: 1"; "State 0"; "State 1"; "[b]: 2"]%string) false
     = Some [(py "1", [mk_item (py "[a]") 1; mk_item (py "[b]") 2]); (py "0", @nil item)]
  /\ exists xs i,
       dict_get (str_int 1) [(py "1", [mk_item (py "[a]") 1]); (py "0", @nil item)] = Some xs
       /\ dict_get (str_int 1)
            [(py "1", [mk_item (py "[a]") 1; mk_item (py "[b]") 2]); (py "0", @nil item)]
          = Some (xs ++ map snd (filter (fun p => Z.eqb (fst p) 1)
                                   (owned (Some 1%Z) (lines_of ["[b]: 2"]%string))))
       /\ nth_error (keys [(py "1", [mk_item (py "[a]") 1]); (py "0", @nil item)]) i = Some (str_int 1)
       /\ nth_error (keys [(py "1", [mk_item (py "[a]") 1; mk_item (py "[b]") 2]);
                           (py "0", @nil item)]) i = Some (str_int 1).
Proof.
  assert (H1 : classify (py "State 1") = Header 1) by (vm_compute; reflexivity).
  assert (H2 : In 1%Z (headers (lines_of ["State 1"; "[a]: 1"; "State 0"]%string)))
    by (vm_compute; left; reflexivity).
  assert (H3 : convert_lines (lines_of ["State 1"; "[a]: 1"; "State 0"]%string) false
     = Some [(py "1", [mk_item (py "[a]") 1]); (py "0", @nil item)]) by (vm_compute; reflexivity).
  assert (H4 : convert_lines (lines_of ["State 1"; "[a]: 1"; "State 0"; "State 1";
                                        "[b]: 2"]%string) false
     = Some [(py "1", [mk_item (py "[a]") 1; mk_item (py "[b]") 2]); (py "0", @nil item)])
    by (vm_compute; reflexivity).
  refine (conj H1 (conj H2 (conj H3 (conj H4 _)))).
  exact (convert_repeated_header (lines_of ["State 1"; "[a]: 1"; "State 0"]%string)
           (py "State 1") (lines_of ["[b]: 2"]%string) 1 false _ _ H1 H2 H3 H4).
Defined.

Lemma item_key_greedy_witness :
  re_match ITEM_RE (py "[a], [b]: 5") = Some [py "a], [b"; py "5"]
  /\ exists w r,
       py "[a], [b]: 5" = w ++ "["%char :: group 1 [py "a], [b"; py "5"] ++ "]"%char :: r
       /\ forallb is_space w = true /\ ~ In "]"%char r.
Proof.
  assert (H : re_match ITEM_RE (py "[a], [b]: 5") = Some [py "a], [b"; py "5"])
    by (vm_compute; reflexivity).
  exact (conj H (item_key_greedy _ _ H)).
Defined.

Example scenario_fill :
  convert_lines (lines_of ["State 0"; "[T, ID, T, =, NT, Expr]: 5"; "State 2"]%string) true
  = Some [(py "0", [mk_item (py "[ID, =, Expr]") 5]); (py "2", []); (py "1", [])].
Proof. vm_compute. reflexivity. Qed.

Example scenario_end_marker :
  convert (py (String.concat (String LF EmptyString) ["State 3"; "[$end]: 12"; ""]%string)) false
  = Some [(py "3", [mk_item (py "[$end]") 12])].
Proof. vm_compute. reflexivity. Qed.

(** * Further properties of the code *)

(** ** Recognition: the lines the two patterns accept *)

Section Recognition.

Lemma first_some_app {A B : Type} (f : A -> option B) l1 l2 :
  first_some f (l1 ++ l2)
  = match first_some f l1 with Some y => Some y | None => first_some f l2 end.
Proof.
  induction l1 as [|x l1 IH]; simpl; [reflexivity|].
  destruct (f x); auto.
Qed.

Lemma first_some_None {A B : Type} (f : A -> option B) l :
  (forall x, In x l -> f x = None) -> first_some f l = None.
Proof.
  induction l as [|x l IH]; simpl; intros H; [reflexivity|].
  rewrite H by auto. apply IH. auto.
Qed.

Lemma star_suffixes_app p a b :
  forallb p a = true -> exists l, star_suffixes p (a ++ b) = l ++ star_suffixes p b.
Proof.
  induction a as [|c a IH]; simpl; intros H.
  - exists []. reflexivity.
  - apply andb_prop in H as [Hc Ha]. rewrite Hc.
    destruct (IH Ha) as (l & ->). exists ((c :: a ++ b) :: l). reflexivity.
Qed.

Lemma star_suffixes_stop p t :
  (forall c t', t = c :: t' -> p c = false) -> star_suffixes p t = [t].
Proof.
  destruct t as [|c t']; simpl; intros H; [reflexivity|].
  rewrite (H c t' eq_refl). reflexivity.
Qed.

(** A greedy [*] consumes the whole run of its class. *)
Lemma re_run_star_greedy p rs pre t o c r :
  forallb p pre = true -> (forall x t', t = x :: t' -> p x = false) ->
  re_run rs t o c = Some r -> re_run (AStar p :: rs) (pre ++ t) o c = Some r.
Proof.
  intros Hpre Ht Hr. simpl.
  destruct (star_suffixes_app p pre t Hpre) as (l & ->).
  rewrite (star_suffixes_stop p t Ht), rev_app_distr. simpl.
  rewrite Hr. reflexivity.
Qed.

Lemma re_run_star_all p rs s o c r :
  forallb p s = true -> re_run rs [] o c = Some r ->
  re_run (AStar p :: rs) s o c = Some r.
Proof.
  intros Hs Hr. rewrite <- (app_nil_r s).
  apply re_run_star_greedy; [exact Hs | discriminate | exact Hr].
Qed.

(** A greedy [*] gives back characters until the rest matches: when every
    shorter remainder fails, it stops before [x :: rest]. *)
Lemma re_run_star_backtrack p rs a x rest o c r :
  forallb p a = true -> p x = true ->
  (forall t, In t (star_suffixes p rest) -> re_run rs t o c = None) ->
  re_run rs (x :: rest) o c = Some r ->
  re_run (AStar p :: rs) (a ++ x :: rest) o c = Some r.
Proof.
  intros Ha Hx Hfail Hr. cbn [re_run].
  destruct (star_suffixes_app p a (x :: rest) Ha) as (l & ->).
  cbn [star_suffixes]. rewrite Hx, rev_app_distr. cbn [rev].
  rewrite <- app_assoc, first_some_app, first_some_None.
  - simpl. rewrite Hr. reflexivity.
  - intros t Ht. apply Hfail. apply in_rev. exact Ht.
Qed.

Lemma re_run_char_step p rs x s o c :
  p x = true -> re_run (AChar p :: rs) (x :: s) o c = re_run rs s o c.
Proof. intros H. simpl. rewrite H. reflexivity. Qed.

Lemma forallb_impl (p q : ascii -> bool) l :
  (forall c, p c = true -> q c = true) -> forallb p l = true -> forallb q l = true.
Proof.
  intros H. induction l as [|c l IH]; simpl; [reflexivity|].
  intros Hl. apply andb_prop in Hl as [Hc Hl]. rewrite (H c Hc). auto.
Qed.

Lemma space_not_digit c : is_space c = true -> is_digit c = false.
Proof.
  unfold is_space, is_digit. intros H.
  destruct (48 <=? nat_of_ascii c) eqn:E1; [|reflexivity].
  destruct (nat_of_ascii c <=? 57) eqn:E2; [|reflexivity].
  apply Nat.leb_le in E1. apply Nat.leb_le in E2.
  apply orb_prop in H as [H|H]; [apply orb_prop in H as [H|H]|];
    try apply Nat.eqb_eq in H; try (apply andb_prop in H as [H H'];
      apply Nat.leb_le in H; apply Nat.leb_le in H'); lia.
Qed.

Lemma digit_not_space c : is_digit c = true -> is_space c = false.
Proof.
  intros H. destruct (is_space c) eqn:E; [|reflexivity].
  rewrite (space_not_digit c E) in H. discriminate.
Qed.

Lemma forallb_head (p : ascii -> bool) l x t :
  forallb p l = true -> l = x :: t -> p x = true.
Proof. intros H ->. simpl in H. apply andb_prop in H. tauto. Qed.

Lemma not_char_of (p : ascii -> bool) d c :
  p d = false -> p c = true -> Ascii.eqb c d = false.
Proof.
  intros Hd Hc. destruct (Ascii.eqb c d) eqn:E; [|reflexivity].
  apply Ascii.eqb_eq in E. subst. congruence.
Qed.

End Recognition.

Section Completeness.

Lemma close_bracket_fails rs t o os c :
  (forall x t', t = x :: t' -> Ascii.eqb x "]" = false) ->
  re_run (AClose :: AChar (is_char "]") :: rs) t (o :: os) c = None.
Proof.
  intros H. destruct t as [|x t']; [reflexivity|].
  cbn [re_run]. unfold is_char. rewrite (H x t' eq_refl). reflexivity.
Qed.

Lemma no_bracket_suffix p r t :
  forallb (fun c => negb (Ascii.eqb c "]")) r = true ->
  In t (star_suffixes p r) -> forall x t', t = x :: t' -> Ascii.eqb x "]" = false.
Proof.
  intros Hr Ht x t' ->.
  destruct (star_suffixes_spec _ _ _ Ht) as (pre & -> & _).
  rewrite forallb_app in Hr. apply andb_prop in Hr as [_ Hr].
  simpl in Hr. apply andb_prop in Hr as [Hx _]. apply negb_true_iff. exact Hx.
Qed.

Lemma space_no_bracket l :
  forallb is_space l = true -> forallb (fun c => negb (Ascii.eqb c "]")) l = true.
Proof.
  apply forallb_impl. intros c Hc. apply negb_true_iff.
  apply (not_char_of is_space); [reflexivity | exact Hc].
Qed.

Lemma digit_no_bracket l :
  forallb is_digit l = true -> forallb (fun c => negb (Ascii.eqb c "]")) l = true.
Proof.
  apply forallb_impl. intros c Hc. apply negb_true_iff.
  apply (not_char_of is_digit); [reflexivity | exact Hc].
Qed.

(** Every line made of spaces, an opening bracket, a text without newline,
    a closing bracket, spaces, a colon, spaces, digits and spaces is matched
    by [ITEM_RE]; the first group reaches the last closing bracket. *)
Lemma item_match_complete w0 inner w1 w2 ds w3 :
  forallb is_space w0 = true -> forallb not_newline inner = true ->
  forallb is_space w1 = true -> forallb is_space w2 = true ->
  ds <> [] -> forallb is_digit ds = true -> forallb is_space w3 = true ->
  re_match ITEM_RE
    (w0 ++ "["%char :: inner ++ "]"%char :: w1 ++ ":"%char :: w2 ++ ds ++ w3)
  = Some [inner; ds].
Proof.
  intros H0 Hin H1 H2 Hds Hd H3.
  destruct ds as [|d ds']; [congruence|].
  pose proof Hd as Hd'. simpl in Hd'. apply andb_prop in Hd' as [Hd0 Hds'].
  unfold re_match, ITEM_RE. cbn [lit map list_ascii_of_string app re_plus].
  apply re_run_star_greedy; [exact H0 | intros ? ? [= <- _]; reflexivity |].
  rewrite re_run_char_step by reflexivity. rewrite re_run_open.
  apply re_run_star_backtrack; [exact Hin | reflexivity | |].
  - intros t Ht. apply close_bracket_fails.
    eapply no_bracket_suffix; [|exact Ht].
    rewrite forallb_app, space_no_bracket by exact H1. cbn [forallb].
    rewrite forallb_app, space_no_bracket by exact H2. cbn [forallb].
    rewrite (not_char_of is_digit "]" d) by (reflexivity || exact Hd0).
    rewrite forallb_app, digit_no_bracket by exact Hds'.
    rewrite space_no_bracket by exact H3. reflexivity.
  - rewrite re_run_close, firstn_captured.
    rewrite re_run_char_step by reflexivity.
    apply re_run_star_greedy; [exact H1 | intros ? ? [= <- _]; reflexivity |].
    rewrite re_run_char_step by reflexivity.
    apply re_run_star_greedy;
      [exact H2 | intros ? ? [= <- _]; apply digit_not_space; exact Hd0 |].
    rewrite re_run_open, re_run_char_step by exact Hd0.
    apply re_run_star_greedy;
      [exact Hds' | intros ? ? E; apply space_not_digit;
                    exact (forallb_head _ _ _ _ H3 E) |].
    rewrite re_run_close, firstn_captured_cons.
    apply re_run_star_all; [exact H3 | reflexivity].
Qed.

(** Every line made of spaces, [State], at least one space, digits and
    spaces is matched by [STATE_RE], with the digits as its group. *)
Lemma state_match_complete w0 w1 ds w2 :
  forallb is_space w0 = true -> w1 <> [] -> forallb is_space w1 = true ->
  ds <> [] -> forallb is_digit ds = true -> forallb is_space w2 = true ->
  re_match STATE_RE (w0 ++ py "State" ++ w1 ++ ds ++ w2) = Some [ds].
Proof.
  intros H0 Hw1 H1 Hds Hd H2.
  destruct ds as [|d ds']; [congruence|].
  destruct w1 as [|s w1']; [congruence|].
  pose proof Hd as Hd'. simpl in Hd'. apply andb_prop in Hd' as [Hd0 Hds'].
  pose proof H1 as H1'. simpl in H1'. apply andb_prop in H1' as [Hs H1'].
  unfold re_match, STATE_RE. cbn [lit map list_ascii_of_string app re_plus py].
  apply re_run_star_greedy; [exact H0 | intros ? ? [= <- _]; reflexivity |].
  rewrite !re_run_char_step by reflexivity.
  rewrite re_run_char_step by exact Hs.
  apply re_run_star_greedy;
    [exact H1' | intros ? ? [= <- _]; apply digit_not_space; exact Hd0 |].
  rewrite re_run_open, re_run_char_step by exact Hd0.
  apply re_run_star_greedy;
    [exact Hds' | intros ? ? E; apply space_not_digit;
                  exact (forallb_head _ _ _ _ H2 E) |].
  rewrite re_run_close, firstn_captured_cons.
  apply re_run_star_all; [exact H2 | reflexivity].
Qed.

End Completeness.

(** ** [str] and [int] on state indices *)

Section Decimal.

Lemma of_uint_acc_digits d acc :
  Zpos (Pos.of_uint_acc d acc)
  = fold_left (fun acc c => acc * 10 + digit_value c)%Z
      (list_ascii_of_string (DecimalString.NilEmpty.string_of_uint d)) (Zpos acc).
Proof.
  revert acc; induction d as [|d IH|d IH|d IH|d IH|d IH|d IH|d IH|d IH|d IH|d IH];
    intros acc;
    cbn [Pos.of_uint_acc DecimalString.NilEmpty.string_of_uint
         list_ascii_of_string fold_left]; [reflexivity| ..];
    rewrite IH; f_equal;
    match goal with
    | |- context [digit_value ?c] =>
        let v := eval vm_compute in (digit_value c) in
        change (digit_value c) with v
    end; lia.
Qed.

Lemma of_uint_digits d :
  Z.of_N (Pos.of_uint d)
  = fold_left (fun acc c => acc * 10 + digit_value c)%Z
      (list_ascii_of_string (DecimalString.NilEmpty.string_of_uint d)) 0%Z.
Proof.
  induction d as [|d IH|d|d|d|d|d|d|d|d|d]; simpl; [reflexivity|exact IH|..];
    apply of_uint_acc_digits.
Qed.

Lemma string_of_uint_digits d :
  forallb is_digit (list_ascii_of_string (DecimalString.NilEmpty.string_of_uint d)) = true.
Proof. induction d; simpl; auto. Qed.

Lemma str_int_digits n : (0 <= n)%Z -> forallb is_digit (str_int n) = true.
Proof.
  unfold str_int. destruct n as [|p|p]; intros H; [reflexivity| |lia].
  apply string_of_uint_digits.
Qed.

Lemma str_int_nonempty n : str_int n <> [].
Proof.
  unfold str_int. intros H.
  apply (f_equal string_of_list_ascii) in H.
  rewrite string_of_list_ascii_of_string in H.
  apply (f_equal DecimalString.NilEmpty.int_of_string) in H.
  rewrite DecimalString.NilEmpty.isi in H. injection H as H.
  pose proof (DecimalZ.of_to n) as E. rewrite H in E. simpl in E. subst n.
  discriminate H.
Qed.

Lemma int_of_str_int n : (0 <= n)%Z -> int_of_digits (str_int n) = n.
Proof.
  unfold int_of_digits, str_int. destruct n as [|p|p]; intros H; [reflexivity| |lia].
  cbn [Z.to_int DecimalString.NilEmpty.string_of_int].
  rewrite <- of_uint_digits. exact (DecimalZ.of_to (Zpos p)).
Qed.

End Decimal.

(** ** How a line is classified *)

Section Classify.

Lemma first_nonspace a b x y u v :
  forallb is_space a = true -> forallb is_space b = true ->
  is_space x = false -> is_space y = false ->
  a ++ x :: u = b ++ y :: v -> x = y.
Proof.
  revert b; induction a as [|c a IH]; intros b Ha Hb Hx Hy E;
    destruct b as [|c' b]; simpl in *.
  - congruence.
  - injection E as -> _. apply andb_prop in Hb as [Hb _]. congruence.
  - injection E as <- _. apply andb_prop in Ha as [Ha _]. congruence.
  - injection E as _ E. apply andb_prop in Ha as [_ Ha].
    apply andb_prop in Hb as [_ Hb]. eapply IH; eauto.
Qed.

End Classify.

(** ** Where the items go *)

Section Items.

Lemma owned_some_snd c ls : map snd (owned (Some c) ls) = item_lines ls.
Proof.
  revert c; induction ls as [|l ls IH]; intros c; simpl; auto.
  destruct (classify l); simpl; rewrite ?IH; auto.
Qed.

Lemma owned_none_snd ls : map snd (owned None ls) = item_lines (from_first_header ls).
Proof.
  induction ls as [|l ls IH]; simpl; auto.
  unfold is_header. destruct (classify l) eqn:E; auto.
  simpl. rewrite E. apply owned_some_snd.
Qed.

Lemma filter_partition {A : Type} (f : A -> bool) l :
  Permutation (filter f l ++ filter (fun x => negb (f x)) l) l.
Proof.
  induction l as [|x l IH]; simpl; auto.
  destruct (f x); simpl; [constructor; exact IH|].
  apply Permutation_sym, Permutation_cons_app, Permutation_sym, IH.
Qed.

Lemma filter_other_owner {A : Type} (L : list (Z * A)) m n :
  m <> n ->
  filter (fun p => Z.eqb (fst p) m) L
  = filter (fun p => Z.eqb (fst p) m) (filter (fun p => negb (Z.eqb (fst p) n)) L).
Proof.
  intros Hmn. induction L as [|[k v] L IH]; simpl; auto.
  destruct (Z.eqb_spec k n) as [->|Hk]; simpl.
  - apply Z.eqb_neq in Hmn. rewrite Z.eqb_sym, Hmn. exact IH.
  - destruct (k =? m)%Z; rewrite IH; reflexivity.
Qed.

Lemma concat_owners {A : Type} (K : list Z) (L : list (Z * A)) :
  NoDup K -> (forall p, In p L -> In (fst p) K) ->
  Permutation
    (concat (map (fun n => map snd (filter (fun p => Z.eqb (fst p) n) L)) K))
    (map snd L).
Proof.
  intros HK; revert L; induction HK as [|n K Hn HK IH]; intros L HL; simpl.
  - destruct L as [|p L]; [constructor|]. exfalso. exact (HL p (or_introl eq_refl)).
  - rewrite (map_ext_in _
      (fun m => map snd (filter (fun p => Z.eqb (fst p) m)
                           (filter (fun p => negb (Z.eqb (fst p) n)) L))));
      [| intros m Hm; rewrite <- filter_other_owner; [reflexivity|];
         intros ->; contradiction].
    eapply Permutation_trans.
    + apply Permutation_app_head. apply IH.
      intros p Hp. apply filter_In in Hp as [Hp Hne].
      destruct (HL p Hp) as [E|E]; auto.
      rewrite E, Z.eqb_refl in Hne. discriminate.
    + rewrite <- map_app. apply Permutation_map, filter_partition.
Qed.

Lemma owned_in_first_seen lines p :
  In p (owned None lines) -> In (fst p) (first_seen lines).
Proof.
  destruct p as [c it]. intros H. apply owned_in in H as [H|H]; [discriminate|].
  apply first_seen_In. exact H.
Qed.

Lemma table_items lines :
  Permutation (concat (map snd (table lines))) (item_lines (from_first_header lines)).
Proof.
  unfold table. rewrite map_map. cbn [snd].
  rewrite <- owned_none_snd. unfold items_of.
  apply concat_owners; [apply first_seen_NoDup | apply owned_in_first_seen].
Qed.

Lemma concat_empty_entries (K : list Z) :
  concat (map snd (map (fun s => (str_int s, @nil item)) K)) = [].
Proof. induction K; simpl; auto. Qed.

(** The closed form depends on the input only through its headers and the
    items they own. *)
Lemma convert_lines_views L1 L2 b :
  headers L1 = headers L2 -> owned None L1 = owned None L2 ->
  convert_lines L1 b = convert_lines L2 b.
Proof.
  intros Hh Ho. rewrite !convert_lines_closed.
  unfold fill_empty, max_header, table, items_of, first_seen.
  rewrite Hh, Ho. reflexivity.
Qed.

End Items.

(** ** Composition of [normalize_key] *)

Section NormalizeCompose.

Lemma split_on_sep_app c a b :
  split_on c (a ++ c :: b) = split_on c a ++ split_on c b.
Proof.
  induction a as [|x a IH]; cbn [app split_on].
  - rewrite Ascii.eqb_refl. reflexivity.
  - rewrite IH. destruct (Ascii.eqb x c); [reflexivity|].
    destruct (split_on_cons c a) as (r & rs & ->). reflexivity.
Qed.

Lemma join_app sep l1 l2 :
  join sep (l1 ++ l2)
  = match l1, l2 with
    | [], _ => join sep l2
    | _, [] => join sep l1
    | _, _ => join sep l1 ++ sep ++ join sep l2
    end.
Proof.
  induction l1 as [|p l1 IH]; [reflexivity|].
  destruct l1 as [|q l1].
  - destruct l2; reflexivity.
  - cbn [app]. rewrite join_cons2.
    change (q :: l1 ++ l2) with ((q :: l1) ++ l2). rewrite IH.
    destruct l2 as [|r l2]; cbn -[join]; rewrite !join_cons2;
      rewrite ?app_assoc; reflexivity.
Qed.

Lemma join_nonempty sep l :
  Forall (fun p => p <> []) l -> l <> [] -> join sep l <> [].
Proof.
  intros Hl Hne. destruct l as [|p [|q l]]; [congruence| |].
  - inversion Hl; subst. simpl. assumption.
  - rewrite join_cons2. inversion Hl; subst. destruct p; [congruence|discriminate].
Qed.

Lemma kept_nonempty l : Forall (fun p => p <> []) (filter keep_part l).
Proof.
  apply Forall_forall. intros p Hp. apply filter_In in Hp as [_ Hp].
  rewrite keep_part_dropped in Hp. intros ->. discriminate Hp.
Qed.

Lemma key_inner_bracket j : key_inner (py "[" ++ j ++ py "]") = j.
Proof.
  unfold key_inner. cbn [py list_ascii_of_string app tl].
  apply removelast_last.
Qed.

Lemma str_eqb_nil p : str_eqb p [] = match p with [] => true | _ => false end.
Proof. destruct p; reflexivity. Qed.

End NormalizeCompose.

(** ** [str.splitlines] *)

Section SplitLines.


Lemma splitlines_aux_line cur l rest :
  forallb (fun c => negb (is_line_break c)) l = true ->
  splitlines_aux cur (l ++ LF :: rest) = (rev cur ++ l) :: splitlines_aux [] rest.
Proof.
  revert cur; induction l as [|c l IH]; intros cur Hl.
  - rewrite app_nil_r. reflexivity.
  - cbn [forallb] in Hl. apply andb_prop in Hl as [Hc Hl].
    apply negb_true_iff in Hc. cbn [app splitlines_aux].
    destruct (Ascii.eqb c CR) eqn:E;
      [apply Ascii.eqb_eq in E; subst c; discriminate Hc|].
    rewrite Hc, IH by exact Hl. cbn [rev]. rewrite <- app_assoc. reflexivity.
Qed.

End SplitLines.

Section Composition.

Lemma no_state_of_item line caps :
  re_match ITEM_RE line = Some caps -> re_match STATE_RE line = None.
Proof.
  intros HI. destruct (re_match STATE_RE line) as [m|] eqn:HS; [exfalso|reflexivity].
  apply item_match_shape in HI as (w0 & inner & w1 & w2 & ds & w3 & -> & _ & H0 & _).
  apply state_match_shape in HS as (v0 & v1 & es & v2 & E & _ & Hv0 & _).
  cbn [py list_ascii_of_string app] in E.
  pose proof (first_nonspace _ _ _ _ _ _ H0 Hv0 (eq_refl : is_space "[" = false)
                (eq_refl : is_space "S" = false) E) as F.
  discriminate F.
Qed.

Lemma split_on_single c t : ~ In c t -> split_on c t = [t].
Proof.
  intros H. rewrite <- (app_nil_r t) at 1. rewrite split_on_app by exact H.
  simpl. rewrite app_nil_r. reflexivity.
Qed.

Lemma kept_tokens_app a b :
  filter keep_part (map strip (split_on "," (a ++ ","%char :: b)))
  = filter keep_part (map strip (split_on "," a))
    ++ filter keep_part (map strip (split_on "," b)).
Proof. rewrite split_on_sep_app, map_app, filter_app. reflexivity. Qed.

Lemma filter_nonempty_join sep K :
  Forall (fun p => p <> []) K ->
  filter (fun p => negb (str_eqb p [])) [join sep K]
  = match K with [] => [] | _ => [join sep K] end.
Proof.
  intros HK. destruct K as [|k K]; [reflexivity|].
  cbn [filter]. rewrite str_eqb_nil.
  destruct (join sep (k :: K)) as [|x y] eqn:E; [|reflexivity].
  exfalso. exact (join_nonempty sep (k :: K) HK ltac:(discriminate) E).
Qed.

Lemma normalize_key_split a b :
  normalize_key (a ++ ","%char :: b)
  = concat_keys (normalize_key a) (normalize_key b).
Proof.
  unfold concat_keys, normalize_key. cbv zeta.
  rewrite !key_inner_bracket, kept_tokens_app.
  pose proof (kept_nonempty (map strip (split_on "," a))) as HA.
  pose proof (kept_nonempty (map strip (split_on "," b))) as HB.
  set (KA := filter keep_part (map strip (split_on "," a))) in *.
  set (KB := filter keep_part (map strip (split_on "," b))) in *.
  change [join (py ", ") KA; join (py ", ") KB]
    with ([join (py ", ") KA] ++ [join (py ", ") KB]).
  rewrite filter_app.
  rewrite !filter_nonempty_join by assumption.
  rewrite join_app. clearbody KA KB.
  destruct KA as [|ka KA], KB as [|kb KB]; reflexivity.
Qed.

Lemma strip_space_head c t : is_space c = true -> strip (c :: t) = strip t.
Proof. intros H. unfold strip. cbn [lstrip]. rewrite H. reflexivity. Qed.

End Composition.

(** * Further properties: statements *)

(** X1: no line is accepted by both [STATE_RE] and [ITEM_RE]: the first
    non-blank character is [S] for one and an opening bracket for the
    other.  Trying [STATE_RE] first is therefore no priority rule. *)
Theorem patterns_disjoint line :
  re_match STATE_RE line = None \/ re_match ITEM_RE line = None.
Proof.
  destruct (re_match ITEM_RE line) as [caps|] eqn:HI; [|right; reflexivity].
  left. exact (no_state_of_item _ _ HI).
Qed.

(** X2: a line of spaces, an opening bracket, a text without newline, a
    closing bracket, spaces, a colon, spaces, digits and spaces is an item
    line; its key is [normalize_key] of the whole text up to the last
    closing bracket and its value the integer of the digits. *)
Theorem classify_item_line w0 inner w1 w2 ds w3 :
  forallb is_space w0 = true -> forallb not_newline inner = true ->
  forallb is_space w1 = true -> forallb is_space w2 = true ->
  ds <> [] -> forallb is_digit ds = true -> forallb is_space w3 = true ->
  classify (w0 ++ "["%char :: inner ++ "]"%char :: w1 ++ ":"%char :: w2 ++ ds ++ w3)
  = ItemLine (mk_item (normalize_key inner) (int_of_digits ds)).
Proof.
  intros H0 Hin H1 H2 Hds Hd H3.
  pose proof (item_match_complete w0 inner w1 w2 ds w3 H0 Hin H1 H2 Hds Hd H3) as HI.
  unfold classify. rewrite (no_state_of_item _ _ HI), HI. reflexivity.
Qed.

(** X3: a line of spaces, [State], at least one space, digits and spaces
    is a header for the integer of the digits. *)
Theorem classify_header_line w0 w1 ds w2 :
  forallb is_space w0 = true -> w1 <> [] -> forallb is_space w1 = true ->
  ds <> [] -> forallb is_digit ds = true -> forallb is_space w2 = true ->
  classify (w0 ++ py "State" ++ w1 ++ ds ++ w2) = Header (int_of_digits ds).
Proof.
  intros H0 Hw1 H1 Hds Hd H2. unfold classify.
  rewrite (state_match_complete w0 w1 ds w2 H0 Hw1 H1 Hds Hd H2). reflexivity.
Qed.

(** X4: [int] and [str] are inverse on state indices: the line
    ["State " + str(n)] is read back as a header for [n], for every
    [n >= 0]. *)
Theorem classify_state_str n :
  (0 <= n)%Z -> classify (py "State " ++ str_int n) = Header n.
Proof.
  intros Hn. rewrite <- (app_nil_r (str_int n)).
  change (py "State " ++ str_int n ++ [])
    with ([] ++ py "State" ++ [" "%char] ++ str_int n ++ []).
  unfold classify.
  rewrite (state_match_complete [] [" "%char] (str_int n) []);
    [| reflexivity | discriminate | reflexivity | apply str_int_nonempty
     | apply str_int_digits; exact Hn | reflexivity].
  cbn [group nth Nat.sub]. rewrite int_of_str_int by exact Hn. reflexivity.
Qed.

(** X5: leading zeros of a state index do not matter: [State 007] and
    [State 7] are headers of the same state. *)
Theorem classify_header_leading_zero w0 w1 ds w2 :
  forallb is_space w0 = true -> w1 <> [] -> forallb is_space w1 = true ->
  ds <> [] -> forallb is_digit ds = true -> forallb is_space w2 = true ->
  classify (w0 ++ py "State" ++ w1 ++ "0"%char :: ds ++ w2)
  = classify (w0 ++ py "State" ++ w1 ++ ds ++ w2).
Proof.
  intros H0 Hw1 H1 Hds Hd H2. unfold classify.
  change ("0"%char :: ds ++ w2) with (("0"%char :: ds) ++ w2).
  rewrite (state_match_complete w0 w1 ("0"%char :: ds) w2 H0 Hw1 H1);
    [| discriminate | exact Hd | exact H2].
  rewrite (state_match_complete w0 w1 ds w2 H0 Hw1 H1 Hds Hd H2).
  reflexivity.
Qed.

(** X6: [convert] never raises [KeyError]: [data[str(current_state)]] is
    always present when an item is appended. *)
Theorem convert_never_fails text b : convert text b <> None.
Proof. unfold convert. rewrite convert_lines_closed. discriminate. Qed.

(** X7: gap-filling only appends: the table with gap-filling is the table
    without it followed by entries with an empty item list, whose keys
    are not among its keys. *)
Theorem convert_fill_appends lines d :
  convert_lines lines false = Some d ->
  exists e, convert_lines lines true = Some (d ++ e)
    /\ Forall (fun kv => snd kv = [] /\ ~ In (fst kv) (keys d)) e.
Proof.
  rewrite convert_lines_closed. intros [= <-].
  rewrite convert_lines_closed, fill_empty_table.
  eexists; split; [reflexivity|].
  apply Forall_forall. intros kv Hkv. apply in_map_iff in Hkv as (s & <- & Hs).
  split; [reflexivity|]. cbn [fst].
  apply filter_In in Hs as [_ Hm]. intros Hin.
  rewrite keys_table, in_map_str_int, <- mem_In in Hin.
  rewrite Hin in Hm. discriminate.
Qed.


(** X9: no item is lost or invented: the items of the table, state after
    state, are a rearrangement of the item lines from the first header
    on. *)
Theorem convert_items_preserved lines b d :
  convert_lines lines b = Some d ->
  Permutation (concat (map snd d)) (item_lines (from_first_header lines)).
Proof.
  rewrite convert_lines_closed. intros [= <-].
  destruct b; [|apply table_items].
  rewrite fill_empty_table, map_app, concat_app, concat_empty_entries, app_nil_r.
  apply table_items.
Qed.

(** X10: a line that is neither a header nor an item line can be removed
    anywhere without changing the result. *)
Theorem convert_other_line_ignored A l B b :
  classify l = Other ->
  convert_lines (A ++ l :: B) b = convert_lines (A ++ B) b.
Proof.
  intros Hl. apply convert_lines_views.
  - rewrite !headers_app. cbn [headers]. rewrite Hl. reflexivity.
  - rewrite !owned_app. cbn [owned]. rewrite Hl. reflexivity.
Qed.

(** X11: [normalize_key] of two texts joined by a comma puts the two
    normalized keys side by side. *)
Theorem normalize_key_comma a b :
  normalize_key (a ++ ","%char :: b)
  = concat_keys (normalize_key a) (normalize_key b).
Proof. apply normalize_key_split. Qed.

(** X12: a token that trims to [T], [NT] or nothing can be removed from
    anywhere in the middle of a key without changing it. *)
Theorem normalize_key_drop_token a t b :
  ~ In ","%char t -> dropped_token (strip t) = true ->
  normalize_key (a ++ ","%char :: t ++ ","%char :: b)
  = normalize_key (a ++ ","%char :: b).
Proof.
  intros Ht Hd. unfold normalize_key. cbv zeta.
  rewrite !kept_tokens_app, (split_on_single _ _ Ht). cbn [map filter].
  rewrite keep_part_dropped, Hd. reflexivity.
Qed.

(** X13: blanks at the start of the text between the brackets do not
    change the key. *)
Theorem normalize_key_leading_space c inner :
  is_space c = true -> normalize_key (c :: inner) = normalize_key inner.
Proof.
  intros Hc. unfold normalize_key. cbv zeta.
  cbn [split_on]. rewrite (not_char_of is_space "," c) by (reflexivity || exact Hc).
  destruct (split_on_cons "," inner) as (r & rs & ->).
  cbn [map]. rewrite strip_space_head by exact Hc. reflexivity.
Qed.


(** X15: [splitlines] gives back the lines of a text in which every line,
    free of line breaks, is ended by a newline. *)
Theorem splitlines_terminated ls :
  Forall (fun l => forallb (fun c => negb (is_line_break c)) l = true) ls ->
  splitlines (concat (map (fun l => l ++ [LF]) ls)) = ls.
Proof.
  unfold splitlines. induction 1 as [|l ls Hl _ IH]; [reflexivity|].
  cbn [map concat]. rewrite <- app_assoc. cbn [app].
  rewrite splitlines_aux_line by exact Hl. rewrite IH. reflexivity.
Qed.

(** * Witnesses of the further properties *)

Lemma classify_item_line_witness :
  (forallb is_space (py " ") = true /\ forallb not_newline (py "a, T, b]x") = true
   /\ forallb is_space (@nil ascii) = true /\ forallb is_space (py " ") = true
   /\ py "42" <> [] /\ forallb is_digit (py "42") = true
   /\ forallb is_space (@nil ascii) = true)
  /\ classify (py " " ++ "["%char :: py "a, T, b]x" ++ "]"%char :: @nil ascii
               ++ ":"%char :: py " " ++ py "42" ++ @nil ascii)
     = ItemLine (mk_item (normalize_key (py "a, T, b]x")) (int_of_digits (py "42"))).
Proof.
  split; [repeat split; (reflexivity || discriminate)|].
  apply classify_item_line; (reflexivity || discriminate).
Defined.

Lemma classify_header_line_witness :
  (forallb is_space (@nil ascii) = true /\ py "  " <> []
   /\ forallb is_space (py "  ") = true /\ py "12" <> []
   /\ forallb is_digit (py "12") = true /\ forallb is_space (py " ") = true)
  /\ classify (@nil ascii ++ py "State" ++ py "  " ++ py "12" ++ py " ")
     = Header (int_of_digits (py "12")).
Proof.
  split; [repeat split; (reflexivity || discriminate)|].
  apply classify_header_line; (reflexivity || discriminate).
Defined.

Lemma classify_state_str_witness :
  (0 <= 12)%Z /\ classify (py "State " ++ str_int 12) = Header 12.
Proof. split; [lia|]. apply classify_state_str. lia. Defined.

Lemma classify_header_leading_zero_witness :
  (forallb is_space (@nil ascii) = true /\ py " " <> []
   /\ forallb is_space (py " ") = true /\ py "7" <> []
   /\ forallb is_digit (py "7") = true /\ forallb is_space (@nil ascii) = true)
  /\ classify (@nil ascii ++ py "State" ++ py " " ++ "0"%char :: py "7" ++ @nil ascii)
     = classify (@nil ascii ++ py "State" ++ py " " ++ py "7" ++ @nil ascii).
Proof.
  split; [repeat split; (reflexivity || discriminate)|].
  apply classify_header_leading_zero; (reflexivity || discriminate).
Defined.

Lemma convert_fill_appends_witness :
  convert_lines (lines_of ["State 2"; "[x]: 1"]%string) false
  = Some [(py "2", [mk_item (py "[x]") 1])]
  /\ exists e,
       convert_lines (lines_of ["State 2"; "[x]: 1"]%string) true
       = Some ([(py "2", [mk_item (py "[x]") 1])] ++ e)
       /\ Forall (fun kv => snd kv = []
                    /\ ~ In (fst kv) (keys [(py "2", [mk_item (py "[x]") 1])])) e.
Proof.
  assert (H : convert_lines (lines_of ["State 2"; "[x]: 1"]%string) false
              = Some [(py "2", [mk_item (py "[x]") 1])]) by (vm_compute; reflexivity).
  exact (conj H (convert_fill_appends _ _ H)).
Defined.


Lemma convert_items_preserved_witness :
  convert_lines (lines_of ["[a]: 1"; "State 1"; "[b]: 2"; "State 0"; "[c]: 3";
                           "State 1"; "[d]: 4"]%string) true
  = Some [(py "1", [mk_item (py "[b]") 2; mk_item (py "[d]") 4]);
          (py "0", [mk_item (py "[c]") 3])]
  /\ Permutation
       (concat (map snd [(py "1", [mk_item (py "[b]") 2; mk_item (py "[d]") 4]);
                         (py "0", [mk_item (py "[c]") 3])]))
       (item_lines (from_first_header
          (lines_of ["[a]: 1"; "State 1"; "[b]: 2"; "State 0"; "[c]: 3";
                     "State 1"; "[d]: 4"]%string))).
Proof.
  assert (H : convert_lines (lines_of ["[a]: 1"; "State 1"; "[b]: 2"; "State 0";
                                       "[c]: 3"; "State 1"; "[d]: 4"]%string) true
    = Some [(py "1", [mk_item (py "[b]") 2; mk_item (py "[d]") 4]);
            (py "0", [mk_item (py "[c]") 3])]) by (vm_compute; reflexivity).
  exact (conj H (convert_items_preserved _ _ _ H)).
Defined.

Lemma convert_other_line_ignored_witness :
  classify (py "# State 1") = Other
  /\ convert_lines (lines_of ["State 0"]%string ++ py "# State 1"
                    :: lines_of ["[a]: 1"]%string) true
     = convert_lines (lines_of ["State 0"]%string ++ lines_of ["[a]: 1"]%string) true.
Proof.
  assert (H : classify (py "# State 1") = Other) by (vm_compute; reflexivity).
  exact (conj H (convert_other_line_ignored _ _ _ true H)).
Defined.

Lemma normalize_key_drop_token_witness :
  ~ In ","%char (py " NT ") /\ dropped_token (strip (py " NT ")) = true
  /\ normalize_key (py "x" ++ ","%char :: py " NT " ++ ","%char :: py "y")
     = normalize_key (py "x" ++ ","%char :: py "y").
Proof.
  assert (H1 : ~ In ","%char (py " NT ")).
  { cbn. intros H. repeat (destruct H as [H|H]; [discriminate H|]). exact H. }
  assert (H2 : dropped_token (strip (py " NT ")) = true) by (vm_compute; reflexivity).
  exact (conj H1 (conj H2 (normalize_key_drop_token _ _ _ H1 H2))).
Defined.

Lemma normalize_key_leading_space_witness :
  is_space "009"%char = true
  /\ normalize_key ("009"%char :: py "T, a") = normalize_key (py "T, a").
Proof.
  assert (H : is_space "009"%char = true) by reflexivity.
  exact (conj H (normalize_key_leading_space _ _ H)).
Defined.

Lemma splitlines_terminated_witness :
  Forall (fun l => forallb (fun c => negb (is_line_break c)) l = true)
    (lines_of ["State 1"; "[a]: 2"]%string)
  /\ splitlines (concat (map (fun l => l ++ [LF]) (lines_of ["State 1"; "[a]: 2"]%string)))
     = lines_of ["State 1"; "[a]: 2"]%string.
Proof.
  assert (H : Forall (fun l => forallb (fun c => negb (is_line_break c)) l = true)
                (lines_of ["State 1"; "[a]: 2"]%string))
    by (repeat constructor).
  exact (conj H (splitlines_terminated _ H)).
Defined.
